(** * Retrieval pipeline of the chat hub backend (main.py)

    A shallow embedding of the ingestion path ([save_chat]) and of the
    query path ([ai_search_chats]) of [gemini-hub-backend/main.py],
    together with the properties of the chunking loop, of the source
    de-duplication loop and of the error handling of both endpoints.

    Conventions.
    - A Python [str] is a list of Unicode code points, so that [len]
      is [length]; literals of the source are written with [lit].
    - A Python value stored in a metadata dict is a [pyval]; a dict with
      string keys is a [gmap string pyval]; a Python [set] is a [gset].
    - The embedding model, the vector collection, the generative model
      and the identifier allocation of the SQL table are collaborators
      outside the file: they are variables of a section, free to succeed
      or to raise.
    - [print] calls are not modelled. *)

From Stdlib Require Import ZArith Ascii String.
From stdpp Require Import base option list gmap strings pretty.
From stdpp Require Import sorting.

Local Open Scope Z_scope.
Local Open Scope list_scope.

(** ** Strings *)

Definition char := N.
Definition str := list char.

Definition lit (s : string) : str :=
  N_of_ascii <$> list_ascii_of_string s.

Definition newline : char := 10%N.

(** [len(s)] *)
Definition len {A} (l : list A) : Z := Z.of_nat (length l).

(** [str(n)] for a Python int, as used by an f-string. *)
Definition str_of_int (z : Z) : str := lit (pretty z).

(** [sep.join(parts)] *)
Fixpoint join (sep : str) (parts : list str) : str :=
  match parts with
  | [] => []
  | [p] => p
  | p :: rest => p ++ sep ++ join sep rest
  end.

(** ** Values and the pydantic / SQLAlchemy records *)

(** The values that the endpoints store in and read from a metadata
    dict: [None], a string (title, url, collection) or an integer
    (row identifier, chunk index). *)
Inductive pyval :=
  | PNone
  | PStr (s : str)
  | PInt (z : Z).

#[global] Instance pyval_eq_dec : EqDecision pyval.
Proof. solve_decision. Defined.

#[global] Instance pyval_countable : Countable pyval.
Proof.
  refine (inj_countable'
    (fun v => match v with
              | PNone => inl ()
              | PStr s => inr (inl s)
              | PInt z => inr (inr z)
              end)
    (fun c => match c with
              | inl _ => PNone
              | inr (inl s) => PStr s
              | inr (inr z) => PInt z
              end) _).
  by intros [].
Defined.

(** An [Optional[str]] field read as a Python value. *)
Definition of_optional (o : option str) : pyval :=
  match o with
  | Some s => PStr s
  | None => PNone
  end.

(** [str(v)] of an [Optional[str]], as an f-string prints it. *)
Definition str_of_optional (o : option str) : str :=
  match o with
  | Some s => s
  | None => lit "None"
  end.

Record Message := { role : str; content : str }.

Record Conversation := {
  title : str;
  url : str;
  messages : list Message;
  sidebarTitle : option str;
  collection : option str
}.

Record QueryRequest := {
  query : str;
  collection_filter : option str
}.

Record Chat := {
  chat_id : Z;
  chat_title : option str;
  chat_url : str;
  chat_messages : list Message;
  chat_collection : option str
}.

(** ** The chunking loop of [save_chat] *)

Module Chunker.

(** [f"{msg.role}: {msg.content}\n"] *)
Definition line (msg : Message) : str :=
  role msg ++ lit ": " ++ content msg ++ [newline].

(** [f"{sql_db_id}_{chunk_counter}"] *)
Definition chunk_id (sql_db_id chunk_counter : Z) : str :=
  str_of_int sql_db_id ++ lit "_" ++ str_of_int chunk_counter.

(** The metadata dict attached to a chunk. *)
Definition chunk_metadata (sql_db_id : Z) (conversation : Conversation)
    (chunk_counter : Z) : gmap string pyval :=
  <["sql_chat_id" := PInt sql_db_id]>
  (<["title" := of_optional (sidebarTitle conversation)]>
  (<["url" := PStr (url conversation)]>
  (<["chunk_index" := PInt chunk_counter]>
  (<["collection" := of_optional (collection conversation)]> ∅)))).

(** The local variables of the loop. *)
Record state := {
  chunks : list str;
  chunk_ids : list str;
  metadatas : list (gmap string pyval);
  current_chunk : str;
  chunk_counter : Z
}.

Definition init : state :=
  {| chunks := []; chunk_ids := []; metadatas := [];
     current_chunk := []; chunk_counter := 0 |}.

(** One iteration of [for i, msg in enumerate(conversation.messages)]. *)
Definition body (sql_db_id : Z) (conversation : Conversation)
    (i : nat) (msg : Message) (st : state) : state :=
  let current := current_chunk st ++ line msg in
  if (500 <? len current)
     || (Z.of_nat i =? len (messages conversation) - 1)
  then {| chunks := chunks st ++ [current];
          chunk_ids := chunk_ids st ++ [chunk_id sql_db_id (chunk_counter st)];
          metadatas := metadatas st
                         ++ [chunk_metadata sql_db_id conversation (chunk_counter st)];
          current_chunk := [];
          chunk_counter := chunk_counter st + 1 |}
  else {| chunks := chunks st;
          chunk_ids := chunk_ids st;
          metadatas := metadatas st;
          current_chunk := current;
          chunk_counter := chunk_counter st |}.

(** The iterations from index [i] on, over the messages still to come. *)
Fixpoint loop (sql_db_id : Z) (conversation : Conversation)
    (i : nat) (rest : list Message) (st : state) : state :=
  match rest with
  | [] => st
  | msg :: rest' =>
      loop sql_db_id conversation (S i) rest' (body sql_db_id conversation i msg st)
  end.

(** The whole loop, from the initial values of the locals. *)
Definition run (sql_db_id : Z) (conversation : Conversation) : state :=
  loop sql_db_id conversation 0 (messages conversation) init.

(** The transcript: all the lines, in order. *)
Definition transcript (msgs : list Message) : str :=
  concat (line <$> msgs).

(** The bookkeeping of the locals is in step with the chunks closed so
    far: the counter is their number, and the k-th identifier and
    metadata dict are those of index k. *)
Definition in_step (sql_db_id : Z) (conversation : Conversation) (st : state) : Prop :=
  chunk_counter st = len (chunks st)
  /\ metadatas st
     = imap (fun k _ => chunk_metadata sql_db_id conversation (Z.of_nat k)) (chunks st)
  /\ chunk_ids st
     = imap (fun k _ => chunk_id sql_db_id (Z.of_nat k)) (chunks st).

(** A chunk longer than the threshold of the loop. *)
Definition long (chunk : str) : Prop := 500 < len chunk.

End Chunker.

(** ** The source de-duplication loop of [ai_search_chats] *)

Record SourceRef := { sr_title : pyval; sr_url : pyval }.

Module Sources.

(** [meta.get(key, default)]; [meta.get(key)] is [get meta key PNone]. *)
Definition get (meta : gmap string pyval) (key : string) (default : pyval) : pyval :=
  match meta !! key with
  | Some v => v
  | None => default
  end.

(** Truth value of an entry of the metadata list: [None] and the empty
    dict are false. *)
Definition truthy (meta : option (gmap string pyval)) : bool :=
  match meta with
  | Some m => bool_decide (m ≠ ∅)
  | None => false
  end.

(** [meta.get('url')] *)
Definition url_of (m : gmap string pyval) : pyval := get m "url" PNone.

(** The dict appended to [unique_sources]. *)
Definition source_ref (m : gmap string pyval) : SourceRef :=
  {| sr_title := get m "title" (PStr (lit "Unknown Title"));
     sr_url := url_of m |}.

(** The locals [unique_sources] and [seen_urls]. *)
Definition state : Type := list SourceRef * gset pyval.

(** One iteration of [for meta in source_metadatas]. *)
Definition body (st : state) (meta : option (gmap string pyval)) : state :=
  let '(unique_sources, seen_urls) := st in
  match meta with
  | Some m =>
      if truthy meta && negb (bool_decide (url_of m ∈ seen_urls))
      then (unique_sources ++ [source_ref m], seen_urls ∪ {[url_of m]})
      else st
  | None => st
  end.

Definition loop (st : state) (source_metadatas : list (option (gmap string pyval))) : state :=
  foldl body st source_metadatas.

Definition unique_sources (source_metadatas : list (option (gmap string pyval)))
    : list SourceRef :=
  (loop ([], ∅) source_metadatas).1.

(** The entries of the list that pass the [if meta] test. *)
Fixpoint present (source_metadatas : list (option (gmap string pyval)))
    : list (gmap string pyval) :=
  match source_metadatas with
  | [] => []
  | meta :: rest =>
      match meta with
      | Some m => if truthy meta then m :: present rest else present rest
      | None => present rest
      end
  end.

(** What the specification asks of the de-duplicator, read off its
    words: the first occurrence of a url value wins, and the later
    entries with that value are dropped. *)
Fixpoint spec_first_occurrences (l : list (gmap string pyval))
    : list (gmap string pyval) :=
  match l with
  | [] => []
  | m :: rest =>
      m :: filter (fun m' => url_of m' ≠ url_of m) (spec_first_occurrences rest)
  end.

End Sources.

(** ** Effects: exceptions, the stores and the calls to the backends *)

Inductive exn :=
  | Exception (msg : str)
  | HTTPException (status_code : Z) (detail : str).

(** [str(e)] as an f-string prints a caught exception. *)
Definition exn_str (e : exn) : str :=
  match e with
  | Exception msg => msg
  | HTTPException c d => str_of_int c ++ lit ": " ++ d
  end.

Inductive outcome (A : Type) :=
  | Ok (a : A)
  | Raise (e : exn).
Arguments Ok {A} a.
Arguments Raise {A} e.

(** The result dict of [vector_collection.query], restricted to the two
    keys the endpoint reads; a key may hold [None]. *)
Record QueryResult := {
  documents : option (list (list str));
  result_metadatas : option (list (list (option (gmap string pyval))))
}.

(** The calls made to the stores and to the backends, in order. *)
Inductive event :=
  | DbInsert (row : Chat)
  | Encode (texts : list str)
  | VectorAdd (ids : list str) (docs : list str) (metas : list (gmap string pyval))
  | VectorQuery (n_results : Z) (where_filter : option (gmap string pyval))
  | GenerateContent (prompt : str).

(** JSON body of the answers of the two endpoints. *)
Record SaveResponse := { status : str; message : str; database_id : Z }.
Record SearchResponse := { answer : str; sources : list SourceRef }.

Section Backends.

(** The type of an embedding vector and the state of the persistent
    vector collection are those of the backends. *)
Context {Embedding VectorStore : Type}.

(** Identifier given by the SQL table to a new row. *)
Variable alloc_id : list Chat -> Z.
(** [embedding_model.encode(texts).tolist()] *)
Variable encode : list str -> outcome (list Embedding).
(** [vector_collection.add(embeddings, documents, metadatas, ids)]: the
    collection after the call, whether it returned or raised. *)
Variable vector_add :
  VectorStore -> list Embedding -> list str -> list (gmap string pyval) -> list str ->
  outcome () * VectorStore.
(** [vector_collection.query(query_embeddings, n_results, include, where)];
    [None] stands for a falsy result. *)
Variable vector_query :
  VectorStore -> Embedding -> Z -> option (gmap string pyval) ->
  outcome (option QueryResult).
(** [model.generate_content(prompt)], read through [part.text] of each
    of [response.parts]. *)
Variable generate_content : str -> outcome (list str).

Record world := {
  db : list Chat;
  vectors : VectorStore;
  trace : list event
}.

(** A computation reads and updates the world and returns or raises. *)
Definition M (A : Type) : Type := world -> outcome A * world.

Definition ret {A} (a : A) : M A := fun w => (Ok a, w).

Definition raise {A} (e : exn) : M A := fun w => (Raise e, w).

Definition bind {A B} (m : M A) (k : A -> M B) : M B :=
  fun w =>
    match m w with
    | (Ok a, w') => k a w'
    | (Raise e, w') => (Raise e, w')
    end.

(** [try: m  except Exception as e: handler e] *)
Definition try_except {A} (m : M A) (handler : exn -> M A) : M A :=
  fun w =>
    match m w with
    | (Ok a, w') => (Ok a, w')
    | (Raise e, w') => handler e w'
    end.

Notation "'let!' x ':=' m 'in' k" := (bind m (fun x => k))
  (at level 10, x pattern, m at level 100, k at level 200).

Definition log (ev : event) (w : world) : world :=
  {| db := db w; vectors := vectors w; trace := trace w ++ [ev] |}.

(** [db.query(Chat).filter(Chat.url == u).first()] *)
Definition db_first_by_url (u : str) : M (option Chat) :=
  fun w => (Ok (List.find (fun c => bool_decide (chat_url c = u)) (db w)), w).

(** [db.add(db_chat); db.commit(); db.refresh(db_chat)] *)
Definition db_add (title : option str) (url : str) (messages : list Message)
    (collection : option str) : M Chat :=
  fun w =>
    let db_chat := {| chat_id := alloc_id (db w); chat_title := title;
                      chat_url := url; chat_messages := messages;
                      chat_collection := collection |} in
    (Ok db_chat,
     {| db := db w ++ [db_chat]; vectors := vectors w;
        trace := trace w ++ [DbInsert db_chat] |}).

Definition call_encode (texts : list str) : M (list Embedding) :=
  fun w => (encode texts, log (Encode texts) w).

Definition call_vector_add (embeddings : list Embedding) (docs : list str)
    (metas : list (gmap string pyval)) (ids : list str) : M () :=
  fun w =>
    let '(r, v) := vector_add (vectors w) embeddings docs metas ids in
    (r, {| db := db w; vectors := v;
           trace := trace w ++ [VectorAdd ids docs metas] |}).

Definition call_vector_query (query_embedding : Embedding) (n_results : Z)
    (where_filter : option (gmap string pyval)) : M (option QueryResult) :=
  fun w => (vector_query (vectors w) query_embedding n_results where_filter,
            log (VectorQuery n_results where_filter) w).

Definition call_generate_content (prompt : str) : M (list str) :=
  fun w => (generate_content prompt, log (GenerateContent prompt) w).

(** [l[0]] *)
Definition index0 {A} (l : list A) : M A :=
  match l with
  | x :: _ => ret x
  | [] => raise (Exception (lit "list index out of range"))
  end.

(** *** [save_chat] *)

(** The body of the [try] block: chunk, embed, add to the collection. *)
Definition index_chunks (sql_db_id : Z) (conversation : Conversation) : M () :=
  let st := Chunker.run sql_db_id conversation in
  match Chunker.chunks st with
  | _ :: _ =>
      let! embeddings := call_encode (Chunker.chunks st) in
      call_vector_add embeddings (Chunker.chunks st) (Chunker.metadatas st)
        (Chunker.chunk_ids st)
  | [] => ret ()
  end.

Definition save_chat (conversation : Conversation) : M SaveResponse :=
  let! existing_chat := db_first_by_url (url conversation) in
  match existing_chat with
  | Some existing =>
      ret {| status := lit "info";
             message := lit "Chat '" ++ str_of_optional (chat_title existing)
                          ++ lit "' was already saved.";
             database_id := chat_id existing |}
  | None =>
      let! db_chat := db_add (sidebarTitle conversation) (url conversation)
                        (messages conversation) (collection conversation) in
      let sql_db_id := chat_id db_chat in
      let! _ := try_except (index_chunks sql_db_id conversation)
                  (fun e => ret ()) in
      ret {| status := lit "success";
             message := lit "Saved chat '" ++ str_of_optional (chat_title db_chat)
                          ++ lit "'";
             database_id := sql_db_id |}
  end.

(** The row that [save_chat] commits for a conversation, and the world
    once it is committed. *)
Definition committed_row (conversation : Conversation) (w : world) : Chat :=
  {| chat_id := alloc_id (db w); chat_title := sidebarTitle conversation;
     chat_url := url conversation; chat_messages := messages conversation;
     chat_collection := collection conversation |}.

Definition committed (conversation : Conversation) (w : world) : world :=
  {| db := db w ++ [committed_row conversation w]; vectors := vectors w;
     trace := trace w ++ [DbInsert (committed_row conversation w)] |}.

(** *** [ai_search_chats] *)

Definition no_information : str :=
  lit "I couldn't find any relevant information in your saved chats to answer that.".

Definition empty_response_notice : str :=
  lit "The AI model returned an empty response. This might be due to safety settings or the query itself.".

(** The f-string sent to the generative model. *)
Definition prompt_of (context query : str) : str :=
  lit "Based *only* on the following context from my saved chat history, please answer my question. Be concise and synthesize the information. If the context doesn't contain the answer, say so."
    ++ [newline; newline]
    ++ lit "            Context:" ++ [newline]
    ++ lit "            " ++ context ++ [newline; newline]
    ++ lit "            Question: " ++ query ++ [newline; newline]
    ++ lit "            Answer:".

(** [not results or not results.get('documents') or
    not results['documents'][0]] *)
Definition empty_result (results : option QueryResult) : bool :=
  match results with
  | None => true
  | Some r =>
      match documents r with
      | None | Some [] => true
      | Some (docs0 :: _) =>
          match docs0 with
          | [] => true
          | _ :: _ => false
          end
      end
  end.

(** [results['documents'][0]], read after the test above has failed. *)
Definition first_documents (results : option QueryResult) : list str :=
  match results with
  | Some r =>
      match documents r with
      | Some (docs0 :: _) => docs0
      | _ => []
      end
  | None => []
  end.

(** [results['metadatas'][0] if results.get('metadatas') else []] *)
Definition source_metadatas_of (results : option QueryResult)
    : list (option (gmap string pyval)) :=
  match results with
  | Some r =>
      match result_metadatas r with
      | Some (metas0 :: _) => metas0
      | _ => []
      end
  | None => []
  end.

(** [where_filter] *)
Definition where_filter_of (query_request : QueryRequest)
    : option (gmap string pyval) :=
  match collection_filter query_request with
  | Some (c :: cs) => Some {[ "collection" := PStr (c :: cs) ]}
  | _ => None
  end.

(** The inner [try] around the call of the generative model. *)
Definition synthesize (context query : str) : M str :=
  try_except
    (let! parts := call_generate_content (prompt_of context query) in
     match parts with
     | _ :: _ => ret (concat parts)
     | [] => ret empty_response_notice
     end)
    (fun genai_error =>
       ret (lit "Error generating answer with Gemini: " ++ exn_str genai_error
              ++ lit ". Raw context:" ++ [newline] ++ context)).

Definition ai_search_chats (GEMINI_API_KEY : option str)
    (query_request : QueryRequest) : M SearchResponse :=
  let query := query query_request in
  match query with
  | [] => raise (HTTPException 400 (lit "Missing 'query' in request body"))
  | _ :: _ =>
    try_except
      (let! encoded := call_encode [query] in
       let! query_embedding := index0 encoded in
       let where_filter := where_filter_of query_request in
       let! results := call_vector_query query_embedding 20 where_filter in
       if empty_result results
       then ret {| answer := no_information; sources := [] |}
       else
         let context := join ([newline] ++ lit "---" ++ [newline])
                          (first_documents results) in
         let unique_sources :=
           Sources.unique_sources (source_metadatas_of results) in
         match GEMINI_API_KEY with
         | Some (_ :: _) =>
             let! generated_answer := synthesize context query in
             ret {| answer := generated_answer; sources := unique_sources |}
         | _ =>
             ret {| answer := lit "Gemini API key not configured. Raw context:"
                                ++ [newline] ++ context;
                    sources := unique_sources |}
         end)
      (fun e =>
         raise (HTTPException 500
                  (lit "An internal error occurred during search: " ++ exn_str e)))
  end.

End Backends.

Arguments world : clear implicits.
Arguments M : clear implicits.

(** ** Reference backends and sample data

    Small executable stand-ins for the collaborators, used to run the
    endpoints on concrete inputs. The reference collection keeps its
    records in insertion order, answers a query with the first
    [n_results] records that match the [where] filter, and returns an
    empty inner list when none matches. *)

Module Doubles.

Definition Embedding : Type := Z.

Record VectorRecord := {
  vr_id : str;
  vr_document : str;
  vr_metadata : gmap string pyval
}.

Definition VectorStore : Type := list VectorRecord.

Definition alloc_id (rows : list Chat) : Z := len rows + 1.

Definition encode (texts : list str) : outcome (list Embedding) :=
  Ok (len <$> texts).

Definition encode_down (texts : list str) : outcome (list Embedding) :=
  Raise (Exception (lit "embedding backend unavailable")).

Fixpoint records (ids docs : list str) (metas : list (gmap string pyval))
    : list VectorRecord :=
  match ids, docs, metas with
  | i :: ids', d :: docs', m :: metas' =>
      {| vr_id := i; vr_document := d; vr_metadata := m |} :: records ids' docs' metas'
  | _, _, _ => []
  end.

Definition vector_add (store : VectorStore) (embeddings : list Embedding)
    (docs : list str) (metas : list (gmap string pyval)) (ids : list str)
    : outcome () * VectorStore :=
  (Ok (), store ++ records ids docs metas).


(** Equality constraint of a [where] filter on the metadata of a record. *)
Definition matches (where_filter : option (gmap string pyval)) (r : VectorRecord)
    : bool :=
  match where_filter with
  | Some f => bool_decide (map_Forall (fun k v => vr_metadata r !! k = Some v) f)
  | None => true
  end.

Definition vector_query (store : VectorStore) (query_embedding : Embedding)
    (n_results : Z) (where_filter : option (gmap string pyval))
    : outcome (option QueryResult) :=
  let hits := take (Z.to_nat n_results) (List.filter (matches where_filter) store) in
  Ok (Some {| documents := Some [vr_document <$> hits];
              result_metadatas := Some [(fun r => Some (vr_metadata r)) <$> hits] |}).

Definition vector_query_down (store : VectorStore) (query_embedding : Embedding)
    (n_results : Z) (where_filter : option (gmap string pyval))
    : outcome (option QueryResult) :=
  Raise (Exception (lit "vector index unavailable")).

Definition generate_content (prompt : str) : outcome (list str) :=
  Ok [lit "You discussed indexes."].

Definition generate_content_down (prompt : str) : outcome (list str) :=
  Raise (Exception (lit "quota exceeded")).

Definition hello : Message := {| role := lit "user"; content := lit "hello" |}.
Definition reply : Message := {| role := lit "model"; content := lit "hi there" |}.

(** A message whose line has 508 characters. *)
Definition long_message : Message :=
  {| role := lit "user"; content := replicate 501 97%N |}.

Definition chat_url0 : str := lit "https://gemini.google.com/app/c1".

Definition conversation_of (msgs : list Message) (sidebar : option str) : Conversation :=
  {| title := lit "Gemini"; url := chat_url0; messages := msgs;
     sidebarTitle := sidebar; collection := Some (lit "Uncategorized") |}.

Definition empty_world : world VectorStore :=
  {| db := []; vectors := []; trace := [] |}.

(** A world in which the conversation at [chat_url0] is already stored
    and indexed under the collection [SQL]. *)
Definition stored_chat : Chat :=
  {| chat_id := 1; chat_title := Some (lit "Indexes"); chat_url := chat_url0;
     chat_messages := [hello; reply]; chat_collection := Some (lit "SQL") |}.

Definition stored_record : VectorRecord :=
  {| vr_id := lit "1_0";
     vr_document := Chunker.transcript [hello; reply];
     vr_metadata :=
       <["title" := PStr (lit "Indexes")]>
       (<["url" := PStr chat_url0]>
       (<["collection" := PStr (lit "SQL")]> ∅)) |}.

Definition stored_world : world VectorStore :=
  {| db := [stored_chat]; vectors := [stored_record]; trace := [] |}.

End Doubles.

(** ** Predicates on chunks used by the further properties *)

(** A chunk closed in time: a buffer of at most 500 characters followed
    by the line of one message of the conversation. *)
Definition closed_in_time (conversation : Conversation) (chunk : str) : Prop :=
  exists buffer m,
    chunk = buffer ++ Chunker.line m
    /\ m ∈ messages conversation
    /\ len buffer <= 500.

(** ** The endpoints that only read the SQL table

    A query without [order_by] returns its rows in an order chosen by
    the engine; the model lists them in the order of the table, and the
    properties proved of these endpoints do not depend on that order
    where the source does not fix it. *)

(** The answer of [get_chat_status]: [{"exists": True, "id", "title"}]
    or [{"exists": False}]. *)
Inductive ChatStatus :=
  | StatusFound (id : Z) (title : option str)
  | StatusNotFound.

(** [SELECT DISTINCT]: one row per value. *)
Fixpoint distinct (values : list str) : list str :=
  match values with
  | [] => []
  | v :: rest => v :: filter (fun v' => v' ≠ v) (distinct rest)
  end.

(** [order_by(Chat.id.desc())]: the relation between a row and the rows
    listed after it. *)
Definition newer_first (a b : Chat) : Prop := chat_id b <= chat_id a.

#[global] Instance newer_first_dec : RelDecision newer_first.
Proof. intros a b. unfold newer_first. apply _. Defined.

Section TableEndpoints.

Context {VectorStore : Type}.

(** [Chat.title.ilike(pattern)] of the SQL engine, on a title that is
    not NULL. *)
Variable ilike : str -> str -> bool.

Notation "'let!' x ':=' m 'in' k" := (bind (VectorStore := VectorStore) m (fun x => k))
  (at level 10, x pattern, m at level 100, k at level 200).

(** *** [get_chat_status] *)

Definition get_chat_status (url : str) : M VectorStore ChatStatus :=
  let! existing_chat := db_first_by_url url in
  match existing_chat with
  | Some existing => ret (StatusFound (chat_id existing) (chat_title existing))
  | None => ret StatusNotFound
  end.

(** *** [get_collections] *)

(** [db.query(Chat.collection).distinct()
       .filter(Chat.collection.isnot(None)).all()] *)
Definition db_distinct_collections : M VectorStore (list str) :=
  fun w => (Ok (distinct (omap chat_collection (db w))), w).

Definition get_collections : M VectorStore (list str) :=
  let! collection_tuples := db_distinct_collections in
  ret (filter (fun c => c ≠ []) collection_tuples).

(** *** [get_chats_by_collection] *)

(** [db.query(Chat).filter(Chat.collection == collection)
       .order_by(Chat.id.desc()).all()] *)
Definition db_by_collection (collection : str) : M VectorStore (list Chat) :=
  fun w =>
    (Ok (merge_sort newer_first
           (filter (fun c => chat_collection c = Some collection) (db w))),
     w).

Definition get_chats_by_collection (collection : str) : M VectorStore (list Chat) :=
  let! chats := db_by_collection collection in
  ret chats.

(** *** [search_chats] *)

(** [db.query(Chat).filter(Chat.title.ilike(search_term)).limit(10).all()];
    a NULL title matches no pattern. *)
Definition title_matches (search_term : str) (c : Chat) : bool :=
  match chat_title c with
  | Some t => ilike t search_term
  | None => false
  end.

Definition db_search_title (search_term : str) : M VectorStore (list Chat) :=
  fun w => (Ok (take 10 (List.filter (title_matches search_term) (db w))), w).

Definition search_chats (q : str) : M VectorStore (list Chat) :=
  let search_term := lit "%" ++ q ++ lit "%" in
  let! results := db_search_title search_term in
  ret results.

End TableEndpoints.

(** * Properties of the chunking loop *)

Section ChunkerFacts.

Import Chunker.

Variable sql_db_id : Z.
Variable conversation : Conversation.

Abbreviation body := (Chunker.body sql_db_id conversation).
Abbreviation loop := (Chunker.loop sql_db_id conversation).



(** The loop over a list extended by one message is the loop followed
    by one more iteration. *)
Lemma loop_snoc rest msg : forall i st,
  loop i (rest ++ [msg]) st = body (i + length rest)%nat msg (loop i rest st).
Proof.
  induction rest as [|m rest IH]; intros i st; simpl.
  - by rewrite Nat.add_0_r.
  - rewrite IH. f_equal. lia.
Qed.

(** What an iteration does, by the outcome of its test. *)
Lemma body_close i msg st :
  500 < len (current_chunk st ++ line msg)
    \/ Z.of_nat i = len (messages conversation) - 1 ->
  chunks (body i msg st) = chunks st ++ [current_chunk st ++ line msg]
  /\ current_chunk (body i msg st) = []
  /\ chunk_counter (body i msg st) = chunk_counter st + 1
  /\ metadatas (body i msg st)
     = metadatas st ++ [chunk_metadata sql_db_id conversation (chunk_counter st)]
  /\ chunk_ids (body i msg st)
     = chunk_ids st ++ [chunk_id sql_db_id (chunk_counter st)].
Proof.
  intros H. unfold Chunker.body.
  destruct ((500 <? _) || _) eqn:E; [done|].
  apply orb_false_iff in E as [E1 E2]. lia.
Qed.

Lemma body_keep i msg st :
  len (current_chunk st ++ line msg) <= 500 ->
  Z.of_nat i ≠ len (messages conversation) - 1 ->
  body i msg st
  = {| chunks := chunks st; chunk_ids := chunk_ids st; metadatas := metadatas st;
       current_chunk := current_chunk st ++ line msg;
       chunk_counter := chunk_counter st |}.
Proof.
  intros H1 H2. unfold Chunker.body.
  destruct ((500 <? _) || _) eqn:E; [|done].
  apply orb_true_iff in E as [E|E]; lia.
Qed.

Lemma body_cases i msg st :
  (chunks (body i msg st) = chunks st ++ [current_chunk st ++ line msg]
   /\ current_chunk (body i msg st) = []
   /\ (500 < len (current_chunk st ++ line msg)
       \/ Z.of_nat i = len (messages conversation) - 1))
  \/ (chunks (body i msg st) = chunks st
      /\ current_chunk (body i msg st) = current_chunk st ++ line msg).
Proof.
  destruct (decide (500 < len (current_chunk st ++ line msg)
                    \/ Z.of_nat i = len (messages conversation) - 1)) as [H|H].
  - left. destruct (body_close i msg st H) as (? & ? & _). done.
  - right. rewrite body_keep; [done|lia..].
Qed.

Lemma transcript_app a b : transcript (a ++ b) = transcript a ++ transcript b.
Proof. unfold transcript. by rewrite fmap_app, concat_app. Qed.

Lemma transcript_snoc a msg : transcript (a ++ [msg]) = transcript a ++ line msg.
Proof. rewrite transcript_app. unfold transcript. simpl. by rewrite app_nil_r. Qed.

(** Nothing is lost or reordered: the closed chunks followed by the
    buffer always spell the lines read so far. *)
Lemma loop_concat rest : forall i st,
  concat (chunks (loop i rest st)) ++ current_chunk (loop i rest st)
  = concat (chunks st) ++ current_chunk st ++ transcript rest.
Proof.
  induction rest as [|msg rest IH]; intros i st; simpl.
  - unfold transcript. simpl. by rewrite app_nil_r.
  - rewrite IH. change (transcript (msg :: rest)) with (line msg ++ transcript rest).
    destruct (body_cases i msg st) as [(-> & -> & _)|(-> & ->)].
    + rewrite concat_app. simpl. by rewrite !app_nil_r, <- !app_assoc.
    + by rewrite <- !app_assoc.
Qed.

(** Before the last index a chunk is closed by its length only. *)
Lemma loop_early_long rest : forall i st,
  (i + length rest < length (messages conversation))%nat ->
  Forall long (chunks st) ->
  Forall long (chunks (loop i rest st)).
Proof.
  induction rest as [|msg rest IH]; intros i st Hi Hst; simpl in *; [done|].
  apply IH; [lia|].
  destruct (body_cases i msg st) as [(-> & _ & Hc)|(-> & _)]; [|done].
  apply Forall_app; split; [done|].
  apply Forall_singleton. unfold long, len in *. destruct Hc; lia.
Qed.

(** Every closed chunk is the transcript of a non-empty group of
    consecutive messages, and the buffer is the transcript of the
    messages read since. *)
Lemma loop_groups rest : forall i st gs pending,
  chunks st = transcript <$> gs ->
  current_chunk st = transcript pending ->
  Forall (fun g => g ≠ []) gs ->
  exists gs' pending',
    chunks (loop i rest st) = transcript <$> gs'
    /\ current_chunk (loop i rest st) = transcript pending'
    /\ Forall (fun g => g ≠ []) gs'
    /\ concat gs' ++ pending' = concat gs ++ pending ++ rest.
Proof.
  induction rest as [|msg rest IH]; intros i st gs pending Hc Hp Hne; simpl.
  - exists gs, pending. by rewrite app_nil_r.
  - destruct (body_cases i msg st) as [(Hc' & Hp' & _)|(Hc' & Hp')].
    + destruct (IH (S i) (body i msg st) (gs ++ [pending ++ [msg]]) [])
        as (gs' & pending' & ? & ? & ? & Hcat).
      * by rewrite Hc', fmap_app, Hc, Hp, <- transcript_snoc.
      * by rewrite Hp'.
      * apply Forall_app; split; [done|]. apply Forall_singleton.
        by destruct pending.
      * exists gs', pending'. repeat split; try done.
        rewrite Hcat, concat_app. simpl. by rewrite !app_nil_r, <- !app_assoc.
    + destruct (IH (S i) (body i msg st) gs (pending ++ [msg]))
        as (gs' & pending' & ? & ? & ? & Hcat).
      * by rewrite Hc'.
      * by rewrite Hp', Hp, <- transcript_snoc.
      * done.
      * exists gs', pending'. repeat split; try done.
        by rewrite Hcat, <- !app_assoc.
Qed.

(** The counter, the identifiers and the metadata dicts stay in step
    with the chunks. *)
Lemma body_in_step i msg st :
  in_step sql_db_id conversation st -> in_step sql_db_id conversation (body i msg st).
Proof.
  intros (Hn & Hm & Hi).
  destruct (decide (500 < len (current_chunk st ++ line msg)
                    \/ Z.of_nat i = len (messages conversation) - 1)) as [H|H].
  - destruct (body_close i msg st H) as (Ec & _ & En & Em & Ei).
    unfold in_step. rewrite Ec, En, Em, Ei, !imap_app. simpl.
    rewrite Nat.add_0_r, <- Hm, <- Hi, Hn.
    repeat split; [|done..]. unfold len. rewrite length_app. simpl. lia.
  - rewrite body_keep; [done|lia..].
Qed.

Lemma loop_in_step rest : forall i st,
  in_step sql_db_id conversation st -> in_step sql_db_id conversation (loop i rest st).
Proof.
  induction rest as [|msg rest IH]; intros i st H; simpl; [done|].
  by apply IH, body_in_step.
Qed.

End ChunkerFacts.

Lemma snoc_or_nil {A} (l : list A) : l = [] \/ exists l' x, l = l' ++ [x].
Proof.
  induction l as [|x l _] using rev_ind; [by left|right; eauto].
Qed.



(** The last message closes a chunk whatever the length of the buffer,
    and the chunks closed before it were closed by their length. *)
Lemma run_snoc sql_db_id conversation ms m :
  messages conversation = ms ++ [m] ->
  let st := Chunker.loop sql_db_id conversation 0 ms Chunker.init in
  Chunker.chunks (Chunker.run sql_db_id conversation)
  = Chunker.chunks st ++ [Chunker.current_chunk st ++ Chunker.line m]
  /\ Chunker.current_chunk (Chunker.run sql_db_id conversation) = []
  /\ Forall Chunker.long (Chunker.chunks st).
Proof.
  intros E st. unfold Chunker.run. rewrite E, loop_snoc. fold st.
  destruct (body_close sql_db_id conversation (0 + length ms) m st) as (-> & -> & _).
  - right. rewrite E. unfold len. rewrite length_app. simpl. lia.
  - repeat split. apply loop_early_long; [|constructor].
    rewrite E, length_app. simpl. lia.
Qed.

Lemma run_flushed sql_db_id conversation :
  Chunker.current_chunk (Chunker.run sql_db_id conversation) = [].
Proof.
  destruct (snoc_or_nil (messages conversation)) as [E|(ms & m & E)].
  - unfold Chunker.run. by rewrite E.
  - by destruct (run_snoc sql_db_id conversation ms m E) as (_ & ? & _).
Qed.

Lemma run_in_step sql_db_id conversation :
  Chunker.in_step sql_db_id conversation (Chunker.run sql_db_id conversation).
Proof. by apply loop_in_step. Qed.

(** ** Claims on the chunker *)

(** C2. Every chunk but the last one is longer than 500 characters, and
    the last message of a conversation always closes a chunk: the chunk
    list then ends with a chunk that ends with the line of that message,
    and the buffer is left empty, whatever the length of that chunk. *)
Theorem chunks_long_except_last sql_db_id conversation :
  let cs := Chunker.chunks (Chunker.run sql_db_id conversation) in
  (forall k c, cs !! k = Some c -> (k + 1 < length cs)%nat -> 500 < len c)
  /\ (forall ms m, messages conversation = ms ++ [m] ->
        Chunker.current_chunk (Chunker.run sql_db_id conversation) = []
        /\ exists cs' buffer, cs = cs' ++ [buffer ++ Chunker.line m]).
Proof.
  intros cs. split.
  - intros k c Hk Hlt.
    destruct (snoc_or_nil (messages conversation)) as [E|(ms & m & E)].
    + unfold cs, Chunker.run in Hk. by rewrite E in Hk.
    + destruct (run_snoc sql_db_id conversation ms m E) as (Hcs & _ & Hlong).
      subst cs. rewrite Hcs in Hk, Hlt. rewrite length_app in Hlt. simpl in Hlt.
      unfold str in *. rewrite lookup_app_l in Hk by lia.
      by apply (Forall_lookup_1 _ _ _ _ Hlong Hk).
  - intros ms m E.
    destruct (run_snoc sql_db_id conversation ms m E) as (Hcs & Hcur & _).
    split; [done|]. subst cs. eauto.
Qed.

Lemma chunks_long_except_last_witness :
  500 < len (Chunker.line Doubles.long_message)
  /\ Chunker.chunks
       (Chunker.run 1 (Doubles.conversation_of [Doubles.long_message; Doubles.hello] None))
     = [Chunker.line Doubles.long_message; Chunker.line Doubles.hello]
  /\ Chunker.current_chunk
       (Chunker.run 1 (Doubles.conversation_of [Doubles.long_message; Doubles.hello] None))
     = [].
Proof.
  destruct (chunks_long_except_last 1
              (Doubles.conversation_of [Doubles.long_message; Doubles.hello] None))
    as [Hlong Hlast].
  split; [|split].
  - apply (Hlong 0%nat); [reflexivity|vm_compute; lia].
  - reflexivity.
  - apply (Hlast [Doubles.long_message] Doubles.hello). reflexivity.
Defined.




(** * Properties of the source de-duplication loop *)

Section SourcesFacts.

Import Sources.

Implicit Types (m : gmap string pyval) (l : list (gmap string pyval)).
Implicit Types (metas : list (option (gmap string pyval))) (seen : gset pyval).

Lemma elem_of_present m metas : m ∈ present metas <-> Some m ∈ metas /\ m ≠ ∅.
Proof.
  induction metas as [|[m'|] metas IH]; simpl.
  - split; [by intros ?%not_elem_of_nil|by intros [?%not_elem_of_nil _]].
  - destruct (bool_decide_reflect (m' ≠ ∅)) as [Hne|He].
    + rewrite !elem_of_cons, IH. split.
      * intros [->|[? ?]]; auto.
      * intros [[[= ->]|?] ?]; auto.
    + rewrite elem_of_cons, IH. split.
      * intros [? ?]; auto.
      * intros [[[= ->]|?] ?]; [done|auto].
  - rewrite elem_of_cons, IH. split.
    + intros [? ?]; auto.
    + intros [[?|?] ?]; [done|auto].
Qed.

(** The loop, from any state, appends the first occurrences of the url
    values that are not in [seen_urls] yet. *)
Lemma loop_first_occurrences metas : forall acc seen,
  (loop (acc, seen) metas).1
  = acc ++ (source_ref <$> filter (fun m => url_of m ∉ seen)
                             (spec_first_occurrences (present metas))).
Proof.
  unfold loop.
  induction metas as [|[m|] metas IH]; intros acc seen; simpl.
  - by rewrite app_nil_r.
  - destruct (bool_decide (m ≠ ∅)); simpl; [|apply IH].
    destruct (bool_decide_reflect (url_of m ∈ seen)) as [Hin|Hout]; simpl.
    + rewrite IH, filter_cons_False by auto.
      by rewrite list_filter_filter_l by (intros ? ? ?; congruence).
    + rewrite IH, filter_cons_True by done.
      rewrite fmap_cons, list_filter_filter, <- app_assoc. simpl.
      do 3 f_equal. apply list_filter_iff. intros m'.
      rewrite not_elem_of_union, not_elem_of_singleton. tauto.
  - apply IH.
Qed.

Lemma first_occurrences_urls l (u : pyval) :
  u ∈ url_of <$> spec_first_occurrences l <-> u ∈ url_of <$> l.
Proof.
  induction l as [|m l IH]; simpl; [done|].
  rewrite !elem_of_cons, <- IH, !list_elem_of_fmap.
  split.
  - intros [->|(m' & -> & [_ ?]%list_elem_of_filter)]; eauto.
  - intros [->|(m' & -> & ?)]; [by left|].
    destruct (decide (url_of m' = url_of m)) as [E|N]; [by left|right].
    exists m'. by rewrite list_elem_of_filter.
Qed.

Lemma first_occurrences_NoDup l : NoDup (url_of <$> spec_first_occurrences l).
Proof.
  induction l as [|m l IH]; simpl; constructor.
  - rewrite list_elem_of_fmap. intros (m' & E & [N _]%list_elem_of_filter). congruence.
  - eapply sublist_NoDup; [exact IH|]. apply fmap_sublist, sublist_filter.
Qed.

Lemma first_occurrences_sublist l : spec_first_occurrences l `sublist_of` l.
Proof.
  induction l as [|m l IH]; simpl; [done|].
  apply sublist_skip. etransitivity; [apply sublist_filter|exact IH].
Qed.

(** An entry that is kept is the first one of the list with its url. *)
Lemma first_occurrences_first l m :
  m ∈ spec_first_occurrences l ->
  exists l1 l2, l = l1 ++ m :: l2 /\ url_of m ∉ url_of <$> l1.
Proof.
  induction l as [|m0 l IH]; simpl; [by intros ?%not_elem_of_nil|].
  rewrite elem_of_cons, list_elem_of_filter. intros [->|[N Hin]].
  - exists [], l. split; [done|]. simpl. apply not_elem_of_nil.
  - destruct (IH Hin) as (l1 & l2 & -> & Hfresh).
    exists (m0 :: l1), l2. split; [done|]. simpl. rewrite not_elem_of_cons. auto.
Qed.

End SourcesFacts.

Lemma filter_all {A} (P : A -> Prop) `{!forall x, Decision (P x)} (l : list A) :
  (forall x, P x) -> filter P l = l.
Proof.
  intros HP. induction l as [|x l IH]; [done|].
  by rewrite filter_cons_True, IH.
Qed.

(** ** Claim on the de-duplicated sources *)

(** C1, as the code has it. The sources list holds one entry per distinct
    url value of the non-empty metadata entries, a missing url counting
    as the value [None]; each entry is built from the first entry of the
    ranked list with its url value, and the entries keep the order of
    the ranked list. Empty and null metadata entries are skipped; a
    non-empty entry without a url is not: the sources list then has an
    entry whose url is [None]. *)
Theorem unique_sources_first_occurrence
    (source_metadatas : list (option (gmap string pyval))) :
  let out := Sources.unique_sources source_metadatas in
  out = Sources.source_ref
          <$> Sources.spec_first_occurrences (Sources.present source_metadatas)
  /\ Sources.spec_first_occurrences (Sources.present source_metadatas)
       `sublist_of` Sources.present source_metadatas
  /\ NoDup (sr_url <$> out)
  /\ (forall u, u ∈ sr_url <$> out <->
        exists m, Some m ∈ source_metadatas /\ m ≠ ∅ /\ Sources.url_of m = u)
  /\ (forall r, r ∈ out ->
        exists before m after,
          Sources.present source_metadatas = before ++ m :: after
          /\ r = Sources.source_ref m
          /\ Sources.url_of m ∉ Sources.url_of <$> before)
  /\ (forall m, Some m ∈ source_metadatas -> m ≠ ∅ -> m !! "url" = None ->
        PNone ∈ sr_url <$> out).
Proof.
  intros out.
  assert (out = Sources.source_ref
                  <$> Sources.spec_first_occurrences (Sources.present source_metadatas))
    as Hout.
  { unfold out, Sources.unique_sources. rewrite loop_first_occurrences. simpl.
    f_equal. apply filter_all. intros m. apply not_elem_of_empty. }
  assert (sr_url <$> out
          = Sources.url_of
              <$> Sources.spec_first_occurrences (Sources.present source_metadatas))
    as Hurls.
  { rewrite Hout, <- list_fmap_compose. done. }
  assert (forall u, u ∈ sr_url <$> out <->
            exists m, Some m ∈ source_metadatas /\ m ≠ ∅ /\ Sources.url_of m = u)
    as Hmem.
  { intros u. rewrite Hurls, first_occurrences_urls, list_elem_of_fmap. split.
    - intros (m & -> & Hm). apply elem_of_present in Hm as [? ?]. eauto.
    - intros (m & ? & ? & <-). exists m. by rewrite elem_of_present. }
  split; [exact Hout|]. split; [apply first_occurrences_sublist|].
  split; [rewrite Hurls; apply first_occurrences_NoDup|].
  split; [exact Hmem|]. split.
  - intros r Hr. rewrite Hout in Hr.
    apply list_elem_of_fmap in Hr as (m & -> & Hm).
    destruct (first_occurrences_first _ _ Hm) as (l1 & l2 & E & Hfresh).
    by exists l1, m, l2.
  - intros m Hin Hne Hurl. apply Hmem. exists m. repeat split; try done.
    unfold Sources.url_of, Sources.get. by rewrite Hurl.
Qed.

Lemma unique_sources_first_occurrence_witness :
  PNone ∈ sr_url
    <$> Sources.unique_sources
          [Some (Doubles.vr_metadata Doubles.stored_record);
           Some {[ "title" := PStr (lit "Notes") ]};
           Some (Doubles.vr_metadata Doubles.stored_record)].
Proof.
  destruct (unique_sources_first_occurrence
              [Some (Doubles.vr_metadata Doubles.stored_record);
               Some {[ "title" := PStr (lit "Notes") ]};
               Some (Doubles.vr_metadata Doubles.stored_record)])
    as (_ & _ & _ & _ & _ & Hnone).
  apply (Hnone {[ "title" := PStr (lit "Notes") ]}).
  - apply list_elem_of_In. simpl. right. left. reflexivity.
  - apply (bool_decide_unpack _). vm_compute. exact I.
  - reflexivity.
Defined.

(** C1 as stated fails: a metadata entry that lacks a url is not skipped,
    it yields a source whose url is [None]. *)
Lemma unique_sources_keeps_entry_without_url :
  ({[ "title" := PStr (lit "Notes") ]} : gmap string pyval) !! "url" = None
  /\ Sources.unique_sources [Some {[ "title" := PStr (lit "Notes") ]}]
     = [{| sr_title := PStr (lit "Notes"); sr_url := PNone |}].
Proof. split; reflexivity. Qed.

(** * Properties of the endpoints *)

Create HintDb effects.

#[local] Hint Unfold bind try_except ret raise log db_first_by_url db_add
  call_encode call_vector_add call_vector_query call_generate_content index0
  : effects.

Ltac run_effects := autounfold with effects; simpl.

Section EndpointFacts.

Context {Embedding VectorStore : Type}.
Variable alloc_id : list Chat -> Z.
Variable encode : list str -> outcome (list Embedding).
Variable vector_add :
  VectorStore -> list Embedding -> list str -> list (gmap string pyval) -> list str ->
  outcome () * VectorStore.
Variable vector_query :
  VectorStore -> Embedding -> Z -> option (gmap string pyval) ->
  outcome (option QueryResult).
Variable generate_content : str -> outcome (list str).

Implicit Types (w : world VectorStore) (conversation : Conversation).

Abbreviation save := (save_chat alloc_id encode vector_add).
Abbreviation index := (index_chunks encode vector_add).
Abbreviation search := (ai_search_chats encode vector_query generate_content).

Lemma find_url_None conversation w :
  (forall row, row ∈ db w -> chat_url row ≠ url conversation) ->
  List.find (fun c => bool_decide (chat_url c = url conversation)) (db w) = None.
Proof.
  intros H. destruct (List.find _ _) as [row|] eqn:E; [|done].
  apply find_some in E as [Hin Hurl]. apply list_elem_of_In in Hin.
  apply bool_decide_eq_true_1 in Hurl. by destruct (H row Hin).
Qed.

Lemma find_url_Some conversation w :
  (exists row, row ∈ db w /\ chat_url row = url conversation) ->
  exists existing,
    List.find (fun c => bool_decide (chat_url c = url conversation)) (db w) = Some existing
    /\ existing ∈ db w /\ chat_url existing = url conversation.
Proof.
  intros (row & Hin & Hurl). destruct (List.find _ _) as [existing|] eqn:E.
  - exists existing. apply find_some in E as [Hin' Hurl'].
    apply list_elem_of_In in Hin'. apply bool_decide_eq_true_1 in Hurl'. done.
  - apply list_elem_of_In in Hin. pose proof (find_none _ _ E row Hin) as F.
    simpl in F. apply bool_decide_eq_false_1 in F. done.
Qed.

(** A [try] whose handler only logs ends in the world its body left. *)
Lemma try_except_pass (m : M VectorStore ()) w :
  try_except m (fun _ => ret ()) w = (Ok (), (m w).2).
Proof. run_effects. by destruct (m w) as [[[]|e] w']. Qed.

(** The [try] block of [save_chat] does not touch the SQL rows; the calls
    it makes are the encoding of the chunks and, if that returns, one
    [add] of the chunks with their identifiers and metadata dicts; and
    without chunks it makes no call at all. *)
Lemma index_chunks_calls sql_db_id conversation w :
  let st := Chunker.run sql_db_id conversation in
  db (index sql_db_id conversation w).2 = db w
  /\ exists calls,
       trace (index sql_db_id conversation w).2 = trace w ++ calls
       /\ (Chunker.chunks st = [] ->
             calls = [] /\ vectors (index sql_db_id conversation w).2 = vectors w)
       /\ (forall ev, ev ∈ calls ->
             ev = Encode (Chunker.chunks st)
             \/ ev = VectorAdd (Chunker.chunk_ids st) (Chunker.chunks st)
                     (Chunker.metadatas st)).
Proof.
  intros st. unfold index_chunks. fold st.
  destruct (Chunker.chunks st) as [|c cs] eqn:Ecs.
  - split; [done|]. exists []. run_effects. rewrite app_nil_r.
    repeat split; try done. by intros ev ?%not_elem_of_nil.
  - run_effects. destruct (encode (c :: cs)) as [embeddings|e]; simpl.
    + destruct (vector_add _ _ _ _ _) as [r v]; simpl. split; [done|].
      exists [Encode (c :: cs);
              VectorAdd (Chunker.chunk_ids st) (c :: cs) (Chunker.metadatas st)].
      rewrite <- app_assoc. repeat split; try done.
      intros ev [->|[->|?%not_elem_of_nil]%elem_of_cons]%elem_of_cons; auto. done.
    + split; [done|]. exists [Encode (c :: cs)]. repeat split; try done.
      intros ev [->|?%not_elem_of_nil]%elem_of_cons; auto. done.
Qed.

(** The calls of the [try] block, in order. *)
Lemma index_chunks_trace sql_db_id conversation w :
  let st := Chunker.run sql_db_id conversation in
  trace (index sql_db_id conversation w).2
  = trace w
    ++ match Chunker.chunks st with
       | [] => []
       | _ :: _ =>
           Encode (Chunker.chunks st)
           :: match encode (Chunker.chunks st) with
              | Ok _ => [VectorAdd (Chunker.chunk_ids st) (Chunker.chunks st)
                           (Chunker.metadatas st)]
              | Raise _ => []
              end
       end.
Proof.
  intros st. unfold index_chunks. fold st.
  destruct (Chunker.chunks st) as [|c cs]; run_effects; [by rewrite app_nil_r|].
  destruct (encode (c :: cs)) as [embeddings|e]; simpl; [|done].
  destruct (vector_add _ _ _ _ _) as [r v]; simpl. by rewrite <- app_assoc.
Qed.

(** [save_chat] on a url that is not stored: the row is committed, the
    [try] block runs in the world with the row, and the answer is the
    success response with the identifier of the row. *)
Lemma save_chat_new conversation w :
  (forall row, row ∈ db w -> chat_url row ≠ url conversation) ->
  save conversation w
  = (Ok {| status := lit "success";
           message := lit "Saved chat '"
                        ++ str_of_optional (sidebarTitle conversation) ++ lit "'";
           database_id := alloc_id (db w) |},
     (index (alloc_id (db w)) conversation (committed alloc_id conversation w)).2).
Proof.
  intros Hnew. unfold save_chat.
  unfold bind at 1. unfold db_first_by_url. rewrite find_url_None by done.
  unfold bind at 1. unfold db_add. fold (committed_row alloc_id conversation w).
  fold (committed alloc_id conversation w).
  unfold bind. rewrite try_except_pass. done.
Qed.

Lemma stored_or_new conversation w :
  (exists row, row ∈ db w /\ chat_url row = url conversation)
  \/ (forall row, row ∈ db w -> chat_url row ≠ url conversation).
Proof.
  destruct (List.find (fun c => bool_decide (chat_url c = url conversation)) (db w))
    as [existing|] eqn:E.
  - left. exists existing. apply find_some in E as [Hin Hurl].
    apply list_elem_of_In in Hin. by apply bool_decide_eq_true_1 in Hurl.
  - right. intros row Hin%list_elem_of_In Hurl.
    pose proof (find_none _ _ E row Hin) as F. simpl in F.
    by apply bool_decide_eq_false_1 in F.
Qed.

Lemma chunk_metadata_fields sql_db_id conversation k :
  let m := Chunker.chunk_metadata sql_db_id conversation k in
  m !! "sql_chat_id" = Some (PInt sql_db_id)
  /\ m !! "title" = Some (of_optional (sidebarTitle conversation))
  /\ m !! "url" = Some (PStr (url conversation))
  /\ m !! "chunk_index" = Some (PInt k)
  /\ m !! "collection" = Some (of_optional (collection conversation)).
Proof. repeat split. Qed.

(** On a stored url the world is left as it was. *)
Lemma save_chat_stored_world conversation w :
  (exists row, row ∈ db w /\ chat_url row = url conversation) ->
  (save conversation w).2 = w.
Proof.
  intros H. destruct (find_url_Some conversation w H) as (existing & E & _).
  unfold save_chat, bind, db_first_by_url. by rewrite E.
Qed.

(** ** Claims on [save_chat] *)

(** C6. When a row with the url of the conversation is stored, [save_chat]
    answers with the identifier of that row and leaves the world as it
    was: no row is added, the vector collection is the same, and no call
    is made to the embedding model or to the collection. *)
Theorem save_chat_existing_is_noop conversation w :
  (exists row, row ∈ db w /\ chat_url row = url conversation) ->
  exists existing,
    existing ∈ db w /\ chat_url existing = url conversation
    /\ save conversation w
       = (Ok {| status := lit "info";
                message := lit "Chat '" ++ str_of_optional (chat_title existing)
                             ++ lit "' was already saved.";
                database_id := chat_id existing |},
          w).
Proof.
  intros H. destruct (find_url_Some conversation w H) as (existing & E & Hin & Hurl).
  exists existing. repeat split; try done.
  unfold save_chat, bind, db_first_by_url. by rewrite E.
Qed.


(** C8, as the code has it. Every [add] made by [save_chat] passes the
    chunks of the conversation with one metadata dict per chunk; the
    dict of the chunk at position [k] holds the identifier of the
    committed row, the url of the conversation, the index [k], the
    collection of the conversation, and as title the [sidebarTitle] of
    the conversation: a string when it is given, [None] when it is not. *)
Theorem vector_metadata_fields conversation w :
  exists calls,
    trace (save conversation w).2 = trace w ++ calls
    /\ forall ids docs metas, VectorAdd ids docs metas ∈ calls ->
         docs = Chunker.chunks (Chunker.run (alloc_id (db w)) conversation)
         /\ length metas = length docs
         /\ forall k m, metas !! k = Some m ->
              m !! "sql_chat_id" = Some (PInt (alloc_id (db w)))
              /\ m !! "title" = Some (of_optional (sidebarTitle conversation))
              /\ m !! "url" = Some (PStr (url conversation))
              /\ m !! "chunk_index" = Some (PInt (Z.of_nat k))
              /\ 0 <= Z.of_nat k
              /\ m !! "collection" = Some (of_optional (collection conversation)).
Proof.
  destruct (stored_or_new conversation w) as [Hold|Hnew].
  - rewrite (save_chat_stored_world conversation w Hold).
    exists []. rewrite app_nil_r. split; [done|]. by intros ? ? ? ?%not_elem_of_nil.
  - rewrite save_chat_new by done. simpl.
    destruct (index_chunks_calls (alloc_id (db w)) conversation
                (committed alloc_id conversation w)) as (_ & calls & Htr & _ & Hcalls).
    exists (DbInsert (committed_row alloc_id conversation w) :: calls).
    split; [by rewrite Htr; simpl; rewrite <- app_assoc|].
    intros ids docs metas [[=]|Hin]%elem_of_cons.
    destruct (Hcalls _ Hin) as [[=]|[= -> -> ->]].
    destruct (run_in_step (alloc_id (db w)) conversation) as (_ & Hm & _).
    split; [done|]. split; [by rewrite Hm, length_imap|].
    intros k m Hk. rewrite Hm, list_lookup_imap in Hk.
    destruct (_ !! k); simplify_eq/=.
    pose proof (chunk_metadata_fields (alloc_id (db w)) conversation (Z.of_nat k))
      as (? & ? & ? & ? & ?).
    repeat split; try done. lia.
Qed.

(** C9. A conversation with at least one message yields at least one
    chunk. A conversation without messages yields none, and [save_chat]
    then leaves the vector collection as it was and makes no call other
    than the insertion of the row. *)
Theorem chunker_emits_iff_messages sql_db_id conversation :
  (messages conversation ≠ [] ->
     Chunker.chunks (Chunker.run sql_db_id conversation) ≠ [])
  /\ (messages conversation = [] ->
        Chunker.chunks (Chunker.run sql_db_id conversation) = []
        /\ forall w,
             vectors (save conversation w).2 = vectors w
             /\ exists calls,
                  trace (save conversation w).2 = trace w ++ calls
                  /\ forall ev, ev ∈ calls -> exists row, ev = DbInsert row).
Proof.
  split.
  - intros Hne. destruct (snoc_or_nil (messages conversation)) as [E|(ms & m & E)]; [done|].
    destruct (run_snoc sql_db_id conversation ms m E) as (-> & _).
    intros Habs. by apply app_eq_nil in Habs as [_ ?].
  - intros E.
    assert (forall id, Chunker.chunks (Chunker.run id conversation) = []) as Hrun.
    { intros id. unfold Chunker.run. by rewrite E. }
    split; [apply Hrun|]. intros w.
    destruct (stored_or_new conversation w) as [Hold|Hnew].
    + rewrite (save_chat_stored_world conversation w Hold).
      split; [done|]. exists []. rewrite app_nil_r. split; [done|].
      by intros ? ?%not_elem_of_nil.
    + rewrite save_chat_new by done. simpl.
      destruct (index_chunks_calls (alloc_id (db w)) conversation
                  (committed alloc_id conversation w))
        as (_ & calls & Htr & Hnone & _).
      destruct (Hnone (Hrun _)) as [-> ->]. split; [done|].
      exists [DbInsert (committed_row alloc_id conversation w)].
      split; [by rewrite Htr, app_nil_r|].
      intros ev [->|?%not_elem_of_nil]%elem_of_cons; [eauto|done].
Qed.

(** ** Claims on [ai_search_chats] *)

(** C7. When the query is embedded and the collection returns an empty
    result, for whatever filter, the search returns the canned answer
    with an empty list of sources; the generative model is not called. *)
Theorem search_empty_result key query_request w emb embs results :
  query query_request ≠ [] ->
  encode [query query_request] = Ok (emb :: embs) ->
  vector_query (vectors w) emb 20 (where_filter_of query_request) = Ok results ->
  empty_result results = true ->
  search key query_request w
  = (Ok {| answer := no_information; sources := [] |},
     log (VectorQuery 20 (where_filter_of query_request))
       (log (Encode [query query_request]) w)).
Proof.
  intros Hq Henc Hres Hempty. unfold ai_search_chats.
  destruct (query query_request) as [|c q] eqn:Eq; [done|].
  run_effects. rewrite Henc. simpl. rewrite Hres. simpl. by rewrite Hempty.
Qed.

(** C5. For a non-empty query: if the embedding of the query raises, or
    the query of the collection raises, the search raises the error
    response of status 500; if both return, the result is not empty, a
    key is configured and only the call of the generative model raises,
    the search returns a response whose answer is the raw context
    annotated with the error, with the de-duplicated sources. *)
Theorem search_failures key query_request w :
  query query_request ≠ [] ->
  (forall e,
     encode [query query_request] = Raise e ->
     (search key query_request w).1
     = Raise (HTTPException 500
                (lit "An internal error occurred during search: " ++ exn_str e)))
  /\ (forall emb embs e,
        encode [query query_request] = Ok (emb :: embs) ->
        vector_query (vectors w) emb 20 (where_filter_of query_request) = Raise e ->
        (search key query_request w).1
        = Raise (HTTPException 500
                   (lit "An internal error occurred during search: " ++ exn_str e)))
  /\ (forall emb embs results k ks e,
        encode [query query_request] = Ok (emb :: embs) ->
        vector_query (vectors w) emb 20 (where_filter_of query_request) = Ok results ->
        empty_result results = false ->
        key = Some (k :: ks) ->
        let context :=
          join ([newline] ++ lit "---" ++ [newline]) (first_documents results) in
        generate_content (prompt_of context (query query_request)) = Raise e ->
        (search key query_request w).1
        = Ok {| answer := lit "Error generating answer with Gemini: " ++ exn_str e
                            ++ lit ". Raw context:" ++ [newline] ++ context;
                sources := Sources.unique_sources (source_metadatas_of results) |}).
Proof.
  intros Hq. unfold ai_search_chats.
  destruct (query query_request) as [|c q] eqn:Eq; [done|].
  split; [|split].
  - intros e Henc. run_effects. by rewrite Henc.
  - intros emb embs e Henc Hres. run_effects. rewrite Henc. simpl. by rewrite Hres.
  - intros emb embs results k ks e Henc Hres Hfull -> Hgen.
    unfold synthesize. autounfold with effects.
    rewrite Henc. cbn [vectors]. rewrite Hres. cbn [vectors]. rewrite Hfull.
    cbn [vectors]. by rewrite Hgen.
Qed.

End EndpointFacts.

(** * The endpoints on the reference backends *)

Lemma save_chat_existing_is_noop_witness :
  exists existing,
    existing ∈ db Doubles.stored_world /\ chat_url existing = Doubles.chat_url0
    /\ save_chat Doubles.alloc_id Doubles.encode Doubles.vector_add
         (Doubles.conversation_of [Doubles.hello] None) Doubles.stored_world
       = (Ok {| status := lit "info";
                message := lit "Chat '" ++ str_of_optional (chat_title existing)
                             ++ lit "' was already saved.";
                database_id := chat_id existing |},
          Doubles.stored_world).
Proof.
  apply (save_chat_existing_is_noop Doubles.alloc_id Doubles.encode Doubles.vector_add
           (Doubles.conversation_of [Doubles.hello] None) Doubles.stored_world).
  exists Doubles.stored_chat. split; [|reflexivity].
  apply list_elem_of_In. simpl. left. reflexivity.
Defined.


Lemma vector_metadata_fields_witness :
  Chunker.chunk_metadata 1
    (Doubles.conversation_of [Doubles.hello] (Some (lit "Greetings"))) 0 !! "title"
  = Some (PStr (lit "Greetings")).
Proof.
  destruct (vector_metadata_fields Doubles.alloc_id Doubles.encode Doubles.vector_add
              (Doubles.conversation_of [Doubles.hello] (Some (lit "Greetings")))
              Doubles.empty_world) as (calls & Htrace & Hcalls).
  change (trace Doubles.empty_world ++ calls) with calls in Htrace.
  destruct (Hcalls
              [lit "1_0"] [Chunker.line Doubles.hello]
              [Chunker.chunk_metadata 1
                 (Doubles.conversation_of [Doubles.hello] (Some (lit "Greetings"))) 0])
    as (_ & _ & Hfields).
  - rewrite <- Htrace. apply list_elem_of_In. right. right. left. reflexivity.
  - destruct (Hfields 0%nat _ eq_refl) as (_ & Htitle & _). exact Htitle.
Defined.

(** C8 as stated fails: a conversation sent without [sidebarTitle] is
    indexed with a title that is [None], not a string. *)
Lemma vector_record_title_none :
  exists r,
    vectors (save_chat Doubles.alloc_id Doubles.encode Doubles.vector_add
               (Doubles.conversation_of [Doubles.hello] None) Doubles.empty_world).2
    = [r]
    /\ Doubles.vr_metadata r !! "title" = Some PNone.
Proof. eexists. split; reflexivity. Qed.

Lemma chunker_emits_iff_messages_witness :
  Chunker.chunks (Chunker.run 1 (Doubles.conversation_of [Doubles.hello] None)) ≠ []
  /\ vectors (save_chat Doubles.alloc_id Doubles.encode Doubles.vector_add
                (Doubles.conversation_of [] None) Doubles.empty_world).2
     = vectors Doubles.empty_world.
Proof.
  split.
  - apply (chunker_emits_iff_messages Doubles.alloc_id Doubles.encode Doubles.vector_add
             1 (Doubles.conversation_of [Doubles.hello] None)).
    simpl. discriminate.
  - apply (chunker_emits_iff_messages Doubles.alloc_id Doubles.encode Doubles.vector_add
             1 (Doubles.conversation_of [] None)).
    reflexivity.
Defined.

Lemma search_empty_result_witness :
  ai_search_chats Doubles.encode Doubles.vector_query Doubles.generate_content
    (Some (lit "key"))
    {| query := lit "indexes"; collection_filter := Some (lit "Python") |}
    Doubles.stored_world
  = (Ok {| answer := no_information; sources := [] |},
     {| db := [Doubles.stored_chat]; vectors := [Doubles.stored_record];
        trace := [Encode [lit "indexes"];
                  VectorQuery 20 (Some {[ "collection" := PStr (lit "Python") ]})] |}).
Proof.
  apply (search_empty_result Doubles.encode Doubles.vector_query Doubles.generate_content
           (Some (lit "key"))
           {| query := lit "indexes"; collection_filter := Some (lit "Python") |}
           Doubles.stored_world 7 []
           (Some {| documents := Some [[]]; result_metadatas := Some [[]] |})).
  - discriminate.
  - reflexivity.
  - reflexivity.
  - reflexivity.
Defined.

Lemma search_failures_witness :
  (ai_search_chats Doubles.encode_down Doubles.vector_query Doubles.generate_content
     (Some (lit "key"))
     {| query := lit "indexes"; collection_filter := Some (lit "SQL") |}
     Doubles.stored_world).1
  = Raise (HTTPException 500
             (lit "An internal error occurred during search: embedding backend unavailable"))
  /\ (ai_search_chats Doubles.encode Doubles.vector_query_down Doubles.generate_content
        (Some (lit "key"))
        {| query := lit "indexes"; collection_filter := Some (lit "SQL") |}
        Doubles.stored_world).1
     = Raise (HTTPException 500
                (lit "An internal error occurred during search: vector index unavailable"))
  /\ (ai_search_chats Doubles.encode Doubles.vector_query Doubles.generate_content_down
        (Some (lit "key"))
        {| query := lit "indexes"; collection_filter := Some (lit "SQL") |}
        Doubles.stored_world).1
     = Ok {| answer := lit "Error generating answer with Gemini: quota exceeded. Raw context:"
                         ++ [newline] ++ Chunker.transcript [Doubles.hello; Doubles.reply];
             sources := [{| sr_title := PStr (lit "Indexes");
                            sr_url := PStr Doubles.chat_url0 |}] |}.
Proof.
  split; [|split].
  - destruct (search_failures Doubles.encode_down Doubles.vector_query
                Doubles.generate_content (Some (lit "key"))
                {| query := lit "indexes"; collection_filter := Some (lit "SQL") |}
                Doubles.stored_world) as (Hembed & _ & _); [discriminate|].
    apply (Hembed (Exception (lit "embedding backend unavailable"))). reflexivity.
  - destruct (search_failures Doubles.encode Doubles.vector_query_down
                Doubles.generate_content (Some (lit "key"))
                {| query := lit "indexes"; collection_filter := Some (lit "SQL") |}
                Doubles.stored_world) as (_ & Hindex & _); [discriminate|].
    apply (Hindex 7 [] (Exception (lit "vector index unavailable"))); reflexivity.
  - destruct (search_failures Doubles.encode Doubles.vector_query
                Doubles.generate_content_down (Some (lit "key"))
                {| query := lit "indexes"; collection_filter := Some (lit "SQL") |}
                Doubles.stored_world) as (_ & _ & Hsynth); [discriminate|].
    apply (Hsynth 7 []
             (Some {| documents := Some [[Chunker.transcript [Doubles.hello; Doubles.reply]]];
                      result_metadatas :=
                        Some [[Some (Doubles.vr_metadata Doubles.stored_record)]] |})
             107%N [101%N; 121%N] (Exception (lit "quota exceeded"))); reflexivity.
Defined.

(** * Worked examples *)

(** Three short messages make one chunk. *)
Example one_chunk_for_a_short_conversation :
  Chunker.chunks
    (Chunker.run 1 (Doubles.conversation_of
                      [Doubles.hello; Doubles.reply; Doubles.hello] None))
  = [Chunker.transcript [Doubles.hello; Doubles.reply; Doubles.hello]].
Proof. reflexivity. Qed.

(** Five messages of 240 characters a line: the first chunk closes after
    the third line, the last one holds the two lines that remain. *)
Example two_chunks_for_a_long_conversation :
  let msg := {| role := lit "user"; content := replicate 233 97%N |} in
  len <$> Chunker.chunks
            (Chunker.run 1 (Doubles.conversation_of [msg; msg; msg; msg; msg] None))
  = [720; 480].
Proof. reflexivity. Qed.

(** A single message longer than the threshold is one chunk. *)
Example oversized_message_is_not_split :
  Chunker.chunks (Chunker.run 1 (Doubles.conversation_of [Doubles.long_message] None))
  = [Chunker.line Doubles.long_message].
Proof. reflexivity. Qed.

(** Identifiers of the chunks of row 12. *)
Example chunk_ids_of_row_12 :
  Chunker.chunk_ids
    (Chunker.run 12 (Doubles.conversation_of [Doubles.long_message; Doubles.hello] None))
  = [lit "12_0"; lit "12_1"].
Proof. reflexivity. Qed.

(** Urls a, b, a, c give the sources a, b, c; the metadata carry no
    title, so each source has the default one. *)
Example sources_a_b_a_c :
  sr_url <$> Sources.unique_sources
               [Some {[ "url" := PStr (lit "a") ]}; Some {[ "url" := PStr (lit "b") ]};
                Some {[ "url" := PStr (lit "a") ]}; Some {[ "url" := PStr (lit "c") ]}]
  = [PStr (lit "a"); PStr (lit "b"); PStr (lit "c")]
  /\ sr_title <$> Sources.unique_sources [Some {[ "url" := PStr (lit "a") ]}]
     = [PStr (lit "Unknown Title")].
Proof. split; reflexivity. Qed.

(** Null and empty entries of the metadata list are skipped. *)
Example sources_skip_empty_entries :
  Sources.unique_sources [None; Some ∅] = [].
Proof. reflexivity. Qed.

(** An empty query is refused before any call. *)
Example empty_query_is_refused :
  ai_search_chats Doubles.encode Doubles.vector_query Doubles.generate_content
    (Some (lit "key")) {| query := []; collection_filter := None |} Doubles.stored_world
  = (Raise (HTTPException 400 (lit "Missing 'query' in request body")),
     Doubles.stored_world).
Proof. reflexivity. Qed.

(** A search that goes through on the reference backends. *)
Example search_with_answer :
  (ai_search_chats Doubles.encode Doubles.vector_query Doubles.generate_content
     (Some (lit "key")) {| query := lit "indexes"; collection_filter := None |}
     Doubles.stored_world).1
  = Ok {| answer := lit "You discussed indexes.";
          sources := [{| sr_title := PStr (lit "Indexes");
                         sr_url := PStr Doubles.chat_url0 |}] |}.
Proof. reflexivity. Qed.

(** Without a key the raw context is returned. *)
Example search_without_key :
  (ai_search_chats Doubles.encode Doubles.vector_query Doubles.generate_content
     None {| query := lit "indexes"; collection_filter := None |}
     Doubles.stored_world).1
  = Ok {| answer := lit "Gemini API key not configured. Raw context:" ++ [newline]
                      ++ Chunker.transcript [Doubles.hello; Doubles.reply];
          sources := [{| sr_title := PStr (lit "Indexes");
                         sr_url := PStr Doubles.chat_url0 |}] |}.
Proof. reflexivity. Qed.

(** Saving a new conversation on the reference backends: one row, one
    record per chunk, three calls. *)
Example save_new_conversation :
  let w' := (save_chat Doubles.alloc_id Doubles.encode Doubles.vector_add
               (Doubles.conversation_of [Doubles.long_message; Doubles.hello]
                  (Some (lit "Greetings")))
               Doubles.empty_world).2 in
  chat_id <$> db w' = [1]
  /\ Doubles.vr_id <$> vectors w' = [lit "1_0"; lit "1_1"]
  /\ length (trace w') = 3%nat.
Proof. repeat split. Qed.

(** * Further properties of the chunking loop *)

Section ChunkerBounds.

Import Chunker.

Variable sql_db_id : Z.
Variable conversation : Conversation.

Abbreviation body := (Chunker.body sql_db_id conversation).
Abbreviation loop := (Chunker.loop sql_db_id conversation).

(** The buffer never holds more than 500 characters between two
    iterations, so a chunk is closed by the first line that takes it
    over the threshold. *)
Lemma loop_buffer_bound rest : forall i st,
  (forall m, m ∈ rest -> m ∈ messages conversation) ->
  len (current_chunk st) <= 500 ->
  Forall (closed_in_time conversation) (chunks st) ->
  len (current_chunk (loop i rest st)) <= 500
  /\ Forall (closed_in_time conversation) (chunks (loop i rest st)).
Proof.
  induction rest as [|msg rest IH]; intros i st Hin Hbuf Hcs; simpl; [done|].
  assert (msg ∈ messages conversation) as Hmsg by (apply Hin; left).
  assert (forall m, m ∈ rest -> m ∈ messages conversation) as Hin'
    by (intros m ?; apply Hin; by right).
  destruct (decide (500 < len (current_chunk st ++ line msg)
                    \/ Z.of_nat i = len (messages conversation) - 1)) as [H|H].
  - destruct (body_close sql_db_id conversation i msg st H) as (Ec & Eb & _).
    apply IH; [done|by rewrite Eb|].
    rewrite Ec. apply Forall_app; split; [done|]. apply Forall_singleton.
    by exists (current_chunk st), msg.
  - rewrite body_keep by lia. apply IH; simpl; [done|lia|done].
Qed.

End ChunkerBounds.

Lemma len_app {A} (a b : list A) : len (a ++ b) = len a + len b.
Proof. unfold len. rewrite length_app. lia. Qed.

Lemma len_nonneg {A} (a : list A) : 0 <= len a.
Proof. unfold len. lia. Qed.

(** X1. Every chunk is a buffer of at most 500 characters followed by the
    line of one message: a chunk is never longer than 500 characters
    plus the length of its last line. *)
Theorem chunk_length_bound sql_db_id conversation chunk :
  chunk ∈ Chunker.chunks (Chunker.run sql_db_id conversation) ->
  exists buffer m,
    chunk = buffer ++ Chunker.line m
    /\ m ∈ messages conversation
    /\ len buffer <= 500
    /\ len chunk <= 500 + len (Chunker.line m).
Proof.
  intros Hin.
  destruct (loop_buffer_bound sql_db_id conversation (messages conversation) 0
              Chunker.init) as [_ Hall]; [done|done|constructor|].
  rewrite Forall_forall in Hall.
  destruct (Hall chunk Hin) as (buffer & m & -> & Hm & Hlen).
  exists buffer, m. repeat split; try done. rewrite len_app. lia.
Qed.

Lemma chunk_length_bound_witness :
  exists buffer m,
    Chunker.line Doubles.long_message = buffer ++ Chunker.line m
    /\ m ∈ [Doubles.long_message; Doubles.hello]
    /\ len buffer <= 500
    /\ len (Chunker.line Doubles.long_message) <= 500 + len (Chunker.line m).
Proof.
  apply (chunk_length_bound 1
           (Doubles.conversation_of [Doubles.long_message; Doubles.hello] None)).
  apply list_elem_of_In. left. reflexivity.
Defined.

(** X2. The messages before the last one decide whether the conversation is
    split: if their lines take at most 500 characters the whole
    transcript is the only chunk, otherwise there are at least two
    chunks. *)
Theorem single_chunk_iff_short sql_db_id conversation ms m :
  messages conversation = ms ++ [m] ->
  (len (Chunker.transcript ms) <= 500 ->
     Chunker.chunks (Chunker.run sql_db_id conversation)
     = [Chunker.transcript (messages conversation)])
  /\ (500 < len (Chunker.transcript ms) ->
        (2 <= length (Chunker.chunks (Chunker.run sql_db_id conversation)))%nat).
Proof.
  intros E.
  destruct (run_snoc sql_db_id conversation ms m E) as (Hcs & _ & Hlong).
  pose proof (loop_concat sql_db_id conversation ms 0 Chunker.init) as Hcat.
  simpl in Hcat.
  destruct (loop_buffer_bound sql_db_id conversation ms 0 Chunker.init)
    as [Hbuf _]; [|done|constructor|].
  { intros x Hx. rewrite E. apply elem_of_app. by left. }
  set (st := Chunker.loop sql_db_id conversation 0 ms Chunker.init) in *.
  split.
  - intros Hshort. rewrite Hcs, E, transcript_snoc.
    destruct (Chunker.chunks st) as [|c cs] eqn:Ecs.
    + simpl in *. by rewrite Hcat.
    + apply Forall_cons in Hlong as [Hc _]. unfold Chunker.long in Hc.
      apply (f_equal len) in Hcat. simpl in Hcat. rewrite !len_app in Hcat.
      pose proof (len_nonneg (concat cs)). pose proof (len_nonneg (Chunker.current_chunk st)).
      lia.
  - intros Hbig. rewrite Hcs, length_app. simpl.
    destruct (Chunker.chunks st) as [|c cs] eqn:Ecs; [|simpl; lia].
    simpl in Hcat. rewrite Hcat in Hbuf. lia.
Qed.

Lemma single_chunk_iff_short_witness :
  Chunker.chunks
    (Chunker.run 1 (Doubles.conversation_of [Doubles.hello; Doubles.reply] None))
  = [Chunker.transcript [Doubles.hello; Doubles.reply]]
  /\ (2 <= length (Chunker.chunks
                     (Chunker.run 1 (Doubles.conversation_of
                                       [Doubles.long_message; Doubles.hello] None))))%nat.
Proof.
  split.
  - apply (single_chunk_iff_short 1
             (Doubles.conversation_of [Doubles.hello; Doubles.reply] None)
             [Doubles.hello] Doubles.reply); [reflexivity|].
    vm_compute. discriminate.
  - apply (single_chunk_iff_short 1
             (Doubles.conversation_of [Doubles.long_message; Doubles.hello] None)
             [Doubles.long_message] Doubles.hello); [reflexivity|].
    vm_compute. reflexivity.
Defined.

Lemma length_concat_nonempty {A} (groups : list (list A)) :
  Forall (fun g => g ≠ []) groups -> (length groups <= length (concat groups))%nat.
Proof.
  induction 1 as [|g groups Hg _ IH]; simpl; [done|].
  rewrite length_app. destruct g; [done|]. simpl. lia.
Qed.

(** X3. There are never more chunks than messages, the counter ends on the
    number of chunks, and there is one identifier and one metadata dict
    per chunk. *)
Theorem chunk_count_bound sql_db_id conversation :
  let st := Chunker.run sql_db_id conversation in
  (length (Chunker.chunks st) <= length (messages conversation))%nat
  /\ Chunker.chunk_counter st = len (Chunker.chunks st)
  /\ length (Chunker.chunk_ids st) = length (Chunker.chunks st)
  /\ length (Chunker.metadatas st) = length (Chunker.chunks st).
Proof.
  intros st.
  destruct (loop_groups sql_db_id conversation (messages conversation) 0
              Chunker.init [] []) as (gs & pending & Hc & _ & Hne & Hcat); try done.
  fold (Chunker.run sql_db_id conversation) in Hc. fold st in Hc.
  destruct (run_in_step sql_db_id conversation) as (Hn & Hm & Hi). fold st in Hn, Hm, Hi.
  split; [|split; [done|split]].
  - rewrite Hc, length_fmap. simpl in Hcat. rewrite <- Hcat, length_app.
    pose proof (length_concat_nonempty gs Hne). lia.
  - by rewrite Hi, length_imap.
  - by rewrite Hm, length_imap.
Qed.

Lemma loop_chunks_frame id1 c1 id2 c2 rest : forall i st1 st2,
  length (messages c1) = length (messages c2) ->
  Chunker.chunks st1 = Chunker.chunks st2 ->
  Chunker.current_chunk st1 = Chunker.current_chunk st2 ->
  Chunker.chunks (Chunker.loop id1 c1 i rest st1)
  = Chunker.chunks (Chunker.loop id2 c2 i rest st2)
  /\ Chunker.current_chunk (Chunker.loop id1 c1 i rest st1)
     = Chunker.current_chunk (Chunker.loop id2 c2 i rest st2).
Proof.
  induction rest as [|msg rest IH]; intros i st1 st2 Hlen Hc Hb; simpl; [done|].
  apply IH; [done|..]; unfold Chunker.body, len; rewrite Hlen, Hc, Hb;
    by destruct (_ || _).
Qed.

(** X4. The chunks are a function of the messages alone: the identifier of
    the row, the title, the url and the collection play no part. *)
Theorem chunks_depend_on_messages_only id1 c1 id2 c2 :
  messages c1 = messages c2 ->
  Chunker.chunks (Chunker.run id1 c1) = Chunker.chunks (Chunker.run id2 c2).
Proof.
  intros E. unfold Chunker.run. rewrite E.
  apply loop_chunks_frame; [by rewrite E|done..].
Qed.

Lemma chunks_depend_on_messages_only_witness :
  Chunker.chunks
    (Chunker.run 1 (Doubles.conversation_of [Doubles.hello] None))
  = Chunker.chunks
      (Chunker.run 2 {| title := lit "Other"; url := lit "https://example.org/2";
                        messages := [Doubles.hello]; sidebarTitle := Some (lit "Other");
                        collection := None |}).
Proof.
  apply (chunks_depend_on_messages_only 1
           (Doubles.conversation_of [Doubles.hello] None) 2
           {| title := lit "Other"; url := lit "https://example.org/2";
              messages := [Doubles.hello]; sidebarTitle := Some (lit "Other");
              collection := None |}).
  reflexivity.
Defined.

(** ** Identifiers of the chunks *)

Lemma lit_inj : Inj (=) (=) lit.
Proof.
  assert (Inj (=) (=) N_of_ascii) as Hinj.
  { intros a b Hab.
    rewrite <- (ascii_N_embedding a), <- (ascii_N_embedding b). by rewrite Hab. }
  intros s1 s2 H. unfold lit in H. apply (inj (fmap N_of_ascii)) in H.
  rewrite <- (string_of_list_ascii_of_string s1), <- (string_of_list_ascii_of_string s2).
  by rewrite H.
Qed.

Lemma str_of_int_inj : Inj (=) (=) str_of_int.
Proof. intros z1 z2 H. unfold str_of_int in H. by apply lit_inj, (inj pretty) in H. Qed.

(** The decimal digits of a number hold no underscore. *)
Lemma pretty_N_go_no_underscore (x : N) : forall s : string,
  ~ In "_"%char (list_ascii_of_string s) ->
  ~ In "_"%char (list_ascii_of_string (pretty_N_go x s)).
Proof.
  induction (N.lt_wf_0 x) as [x _ IH]; intros s Hs.
  assert (x = 0 \/ 0 < x)%N as [->|Hpos] by lia.
  - by rewrite pretty_N_go_0.
  - rewrite pretty_N_go_step by done. apply IH; [by apply N.div_lt|].
    simpl. intros [Hc|?]; [|done].
    unfold pretty_N_char in Hc. by repeat case_match.
Qed.

Lemma str_of_int_no_underscore z : 95%N ∉ str_of_int z.
Proof.
  assert (~ In "_"%char (list_ascii_of_string (pretty z))) as H.
  { unfold pretty, pretty_Z, pretty, pretty_positive, pretty, pretty_N.
    destruct z as [|p|p]; simpl.
    - intros [?|[]]; discriminate.
    - apply pretty_N_go_no_underscore. simpl. tauto.
    - intros [?|H]; [discriminate|]. revert H.
      apply pretty_N_go_no_underscore. simpl. tauto. }
  unfold str_of_int, lit. rewrite list_elem_of_fmap. intros (a & Ha & Hin).
  apply H. apply list_elem_of_In in Hin.
  assert (a = "_"%char) as <-; [|done].
  rewrite <- (ascii_N_embedding a), <- Ha. reflexivity.
Qed.

(** Two strings cut at their first underscore. *)
Lemma split_at_separator {A} (u : A) (a b c d : list A) :
  u ∉ a -> u ∉ b -> a ++ u :: c = b ++ u :: d -> a = b /\ c = d.
Proof.
  revert b. induction a as [|x a IH]; intros [|y b] Ha Hb E; simplify_eq/=.
  - done.
  - destruct Hb. left.
  - destruct Ha. left.
  - apply not_elem_of_cons in Ha as [_ Ha]. apply not_elem_of_cons in Hb as [_ Hb].
    destruct (IH b Ha Hb) as [-> ->]; done.
Qed.

Lemma chunk_id_split id1 k1 id2 k2 :
  Chunker.chunk_id id1 k1 = Chunker.chunk_id id2 k2 ->
  str_of_int id1 = str_of_int id2 /\ str_of_int k1 = str_of_int k2.
Proof.
  unfold Chunker.chunk_id. change (lit "_") with [95%N]. simpl.
  apply split_at_separator; apply str_of_int_no_underscore.
Qed.

(** X5. The identifier of a chunk names one row and one index: chunks of
    different rows, or of different indices of a row, never share an
    identifier. *)
Theorem chunk_id_unique id1 k1 id2 k2 :
  id1 ≠ id2 \/ k1 ≠ k2 ->
  Chunker.chunk_id id1 k1 ≠ Chunker.chunk_id id2 k2.
Proof.
  intros Hne [E1 E2]%chunk_id_split.
  apply str_of_int_inj in E1, E2.
  destruct Hne; congruence.
Qed.

(** The closed chunks spell the transcript (shared form of the round
    trip of the loop). *)
Lemma chunks_concat_transcript_aux sql_db_id conversation :
  concat (Chunker.chunks (Chunker.run sql_db_id conversation))
  = Chunker.transcript (messages conversation).
Proof.
  pose proof (loop_concat sql_db_id conversation (messages conversation) 0 Chunker.init) as H.
  fold (Chunker.run sql_db_id conversation) in H.
  by rewrite run_flushed, app_nil_r in H.
Qed.

Lemma chunk_id_unique_witness :
  Chunker.chunk_id 1 10 ≠ Chunker.chunk_id 11 0
  /\ Chunker.chunk_id 12 3 ≠ Chunker.chunk_id 12 4.
Proof.
  split; apply chunk_id_unique; [left|right]; lia.
Defined.

(** * Further properties of the source de-duplication loop *)

Lemma sources_loop_seen metas : forall acc seen,
  (Sources.loop (acc, seen) metas).2
  = seen ∪ list_to_set (Sources.url_of <$> Sources.present metas).
Proof.
  unfold Sources.loop.
  induction metas as [|[m|] metas IH]; intros acc seen; simpl.
  - by rewrite (right_id_L ∅ (∪)).
  - destruct (bool_decide (m ≠ ∅)); simpl; [|apply IH].
    destruct (bool_decide_reflect (Sources.url_of m ∈ seen)) as [Hin|Hout]; simpl;
      rewrite IH; apply set_eq; intros x;
      rewrite !elem_of_union, ?elem_of_singleton; [|tauto].
    split; [tauto|]. intros [?|[->|?]]; tauto.
  - apply IH.
Qed.

Lemma filter_none {A} (P : A -> Prop) `{!forall x, Decision (P x)} (l : list A) :
  (forall x, x ∈ l -> ~ P x) -> filter P l = [].
Proof.
  induction l as [|x l IH]; intros Hno; [done|].
  rewrite filter_cons_False by (apply Hno; left).
  apply IH. intros y ?. apply Hno. by right.
Qed.

(** X6. Results that come after others never reorder or remove the sources
    found so far: they add, in order, the first occurrences of the url
    values that were not met yet. *)
Theorem unique_sources_app (l1 l2 : list (option (gmap string pyval))) :
  Sources.unique_sources (l1 ++ l2)
  = Sources.unique_sources l1
    ++ (Sources.source_ref
          <$> filter (fun m => Sources.url_of m ∉ Sources.url_of <$> Sources.present l1)
                (Sources.spec_first_occurrences (Sources.present l2))).
Proof.
  unfold Sources.unique_sources, Sources.loop. rewrite foldl_app.
  fold (Sources.loop ([], ∅) l1).
  destruct (Sources.loop ([], ∅) l1) as [acc seen] eqn:E.
  fold (Sources.loop (acc, seen) l2). rewrite loop_first_occurrences. simpl.
  do 2 f_equal. apply list_filter_iff. intros m.
  pose proof (sources_loop_seen l1 [] ∅) as Hseen. rewrite E in Hseen. simpl in Hseen.
  rewrite Hseen, elem_of_union, elem_of_list_to_set.
  split; [tauto|]. intros Hout [[]%not_elem_of_empty|?]; tauto.
Qed.

(** X7. A ranked list followed by itself has the sources of the list, and
    there are never more sources than entries in the list. *)
Theorem unique_sources_repeat (l : list (option (gmap string pyval))) :
  Sources.unique_sources (l ++ l) = Sources.unique_sources l
  /\ (length (Sources.unique_sources l) <= length l)%nat.
Proof.
  split.
  - unfold Sources.unique_sources, Sources.loop. rewrite foldl_app.
    fold (Sources.loop ([], ∅) l).
    pose proof (sources_loop_seen l [] ∅) as Hseen.
    destruct (Sources.loop ([], ∅) l) as [acc seen]. simpl in Hseen. subst seen.
    fold (Sources.loop (acc, ∅ ∪ list_to_set (Sources.url_of <$> Sources.present l)) l).
    rewrite loop_first_occurrences, filter_none; [by rewrite app_nil_r|].
    intros m Hm Hfresh. apply Hfresh.
    apply elem_of_union. right. apply elem_of_list_to_set.
    apply list_elem_of_fmap. exists m. split; [done|].
    by apply (elem_of_sublist _ _ _ Hm (first_occurrences_sublist _)).
  - unfold Sources.unique_sources. rewrite loop_first_occurrences. simpl.
    rewrite length_fmap.
    etransitivity; [apply length_filter|].
    etransitivity; [apply sublist_length, first_occurrences_sublist|].
    induction l as [|[m|] l IH]; simpl; [done| |lia].
    destruct (bool_decide _); simpl; lia.
Qed.

(** * Further properties of [save_chat] *)

Lemma find_snoc {A} (f : A -> bool) (l : list A) (x : A) :
  List.find f (l ++ [x])
  = match List.find f l with
    | Some y => Some y
    | None => if f x then Some x else None
    end.
Proof.
  induction l as [|y l IH]; simpl; [done|]. by destruct (f y).
Qed.

Section SaveFacts.

Context {Embedding VectorStore : Type}.
Variable alloc_id : list Chat -> Z.
Variable encode : list str -> outcome (list Embedding).
Variable vector_add :
  VectorStore -> list Embedding -> list str -> list (gmap string pyval) -> list str ->
  outcome () * VectorStore.

Implicit Types (w : world VectorStore) (conversation : Conversation).

Abbreviation save := (save_chat alloc_id encode vector_add).

Lemma save_chat_new_db conversation w :
  (forall row, row ∈ db w -> chat_url row ≠ url conversation) ->
  db (save conversation w).2 = db w ++ [committed_row alloc_id conversation w].
Proof.
  intros Hnew. rewrite save_chat_new by done. simpl.
  by destruct (index_chunks_calls encode vector_add (alloc_id (db w)) conversation
                 (committed alloc_id conversation w)) as [-> _].
Qed.

(** The first row with the url of a conversation that was just saved. *)
Lemma find_after_save conversation w :
  exists row,
    List.find (fun c => bool_decide (chat_url c = url conversation))
      (db (save conversation w).2) = Some row
    /\ ((save conversation w).1
        = Ok {| status := lit "info";
                message := lit "Chat '" ++ str_of_optional (chat_title row)
                             ++ lit "' was already saved.";
                database_id := chat_id row |}
        \/ (save conversation w).1
           = Ok {| status := lit "success";
                   message := lit "Saved chat '"
                                ++ str_of_optional (sidebarTitle conversation) ++ lit "'";
                   database_id := chat_id row |}
           /\ row = committed_row alloc_id conversation w).
Proof.
  destruct (stored_or_new conversation w) as [Hold|Hnew].
  - destruct (find_url_Some conversation w Hold) as (existing & E & _).
    exists existing. rewrite (save_chat_stored_world alloc_id encode vector_add _ _ Hold).
    split; [done|]. left. unfold save_chat, bind, db_first_by_url. by rewrite E.
  - exists (committed_row alloc_id conversation w).
    rewrite save_chat_new_db, find_snoc, find_url_None by done. simpl.
    rewrite bool_decide_eq_true_2 by done. split; [done|]. right.
    by rewrite save_chat_new.
Qed.

(** X8. [save_chat] never raises, whatever the backends do: it returns the
    success or the info response, and the identifier it returns is the
    one of a stored row with the url of the conversation. *)
Theorem save_chat_always_returns conversation w :
  exists resp row,
    (save conversation w).1 = Ok resp
    /\ (status resp = lit "success" \/ status resp = lit "info")
    /\ row ∈ db (save conversation w).2
    /\ chat_id row = database_id resp
    /\ chat_url row = url conversation.
Proof.
  destruct (find_after_save conversation w) as (row & Hfind & Hresp).
  apply find_some in Hfind as [Hin Hurl].
  apply list_elem_of_In in Hin. apply bool_decide_eq_true_1 in Hurl.
  destruct Hresp as [E|[E _]]; eexists _, row; rewrite E; simpl; auto 10.
Qed.

(** X9. Saving a conversation a second time changes nothing and returns the
    info response with the identifier that the first call returned. *)
Theorem save_chat_twice conversation w :
  exists first second,
    (save conversation w).1 = Ok first
    /\ save conversation (save conversation w).2
       = (Ok second, (save conversation w).2)
    /\ status second = lit "info"
    /\ database_id second = database_id first.
Proof.
  destruct (find_after_save conversation w) as (row & Hfind & Hresp).
  assert (save conversation (save conversation w).2
          = (Ok {| status := lit "info";
                   message := lit "Chat '" ++ str_of_optional (chat_title row)
                                ++ lit "' was already saved.";
                   database_id := chat_id row |},
             (save conversation w).2)) as Hsecond.
  { unfold save_chat at 1. unfold bind at 1. unfold db_first_by_url at 1.
    by rewrite Hfind. }
  destruct Hresp as [E|[E _]]; eexists _, _; (split; [exact E|]);
    (split; [exact Hsecond|]); done.
Qed.

(** X10. The urls of the table stay pairwise distinct, and the rows that were
    stored stay as they were, followed by at most one new row. *)
Theorem save_chat_keeps_urls_unique conversation w :
  NoDup (chat_url <$> db w) ->
  NoDup (chat_url <$> db (save_chat alloc_id encode vector_add conversation w).2)
  /\ db w `prefix_of` db (save_chat alloc_id encode vector_add conversation w).2
  /\ (length (db (save_chat alloc_id encode vector_add conversation w).2)
      <= S (length (db w)))%nat.
Proof.
  intros Hnd. destruct (stored_or_new conversation w) as [Hold|Hnew].
  - rewrite (save_chat_stored_world alloc_id encode vector_add _ _ Hold).
    repeat split; [done|done|lia].
  - rewrite save_chat_new_db by done. repeat split.
    + rewrite fmap_app. apply NoDup_app. repeat split; [done| |apply NoDup_singleton].
      intros u (row & -> & Hrow)%list_elem_of_fmap [E|[]%not_elem_of_nil]%elem_of_cons.
      by apply (Hnew row Hrow).
    + by apply prefix_app_r.
    + rewrite length_app. simpl. lia.
Qed.

(** X11. Every [add] of [save_chat] passes a non-empty batch with as many
    identifiers and metadata dicts as chunks; the identifier at position
    [k] is the one of the row and of the index [k], the identifiers of
    the batch are pairwise distinct, and the documents spell the
    transcript. *)
Theorem save_chat_adds_aligned_batch conversation w :
  exists calls,
    trace (save conversation w).2 = trace w ++ calls
    /\ forall ids docs metas, VectorAdd ids docs metas ∈ calls ->
         docs ≠ []
         /\ length ids = length docs
         /\ length metas = length docs
         /\ NoDup ids
         /\ concat docs = Chunker.transcript (messages conversation)
         /\ forall k id, ids !! k = Some id ->
              id = Chunker.chunk_id (alloc_id (db w)) (Z.of_nat k).
Proof.
  destruct (stored_or_new conversation w) as [Hold|Hnew].
  - rewrite (save_chat_stored_world alloc_id encode vector_add _ _ Hold).
    exists []. rewrite app_nil_r. split; [done|]. by intros ? ? ? ?%not_elem_of_nil.
  - rewrite save_chat_new by done. simpl. rewrite index_chunks_trace. simpl.
    set (st := Chunker.run (alloc_id (db w)) conversation).
    eexists. rewrite <- app_assoc. split; [reflexivity|].
    intros ids docs metas Hin. simpl in Hin.
    apply elem_of_cons in Hin as [[=]|Hin].
    destruct (Chunker.chunks st) as [|c cs] eqn:Ecs; [by apply not_elem_of_nil in Hin|].
    apply elem_of_cons in Hin as [[=]|Hin].
    destruct (encode (c :: cs)); [|by apply not_elem_of_nil in Hin].
    apply elem_of_cons in Hin as [[= -> -> ->]|[]%not_elem_of_nil].
    destruct (run_in_step (alloc_id (db w)) conversation) as (_ & Hm & Hi).
    fold st in Hm, Hi. rewrite Ecs in Hm, Hi.
    assert (forall k id, Chunker.chunk_ids st !! k = Some id ->
              id = Chunker.chunk_id (alloc_id (db w)) (Z.of_nat k)) as Hids.
    { intros k id Hk. rewrite Hi, list_lookup_imap in Hk.
      destruct (_ !! k); by simplify_eq/=. }
    repeat split; try done.
    + by rewrite Hi, length_imap.
    + by rewrite Hm, length_imap.
    + apply NoDup_alt. intros i j id Hi1 Hj1.
      apply Hids in Hi1, Hj1. subst id.
      apply chunk_id_split in Hj1 as [_ Hk]. apply str_of_int_inj in Hk. lia.
    + rewrite <- Ecs. apply chunks_concat_transcript_aux.
Qed.

End SaveFacts.

Lemma save_chat_keeps_urls_unique_witness :
  NoDup (chat_url
           <$> db (save_chat Doubles.alloc_id Doubles.encode Doubles.vector_add
                     {| title := lit "Other"; url := lit "https://example.org/2";
                        messages := [Doubles.hello]; sidebarTitle := None;
                        collection := Some (lit "SQL") |}
                     Doubles.stored_world).2)
  /\ length (db (save_chat Doubles.alloc_id Doubles.encode Doubles.vector_add
                   {| title := lit "Other"; url := lit "https://example.org/2";
                      messages := [Doubles.hello]; sidebarTitle := None;
                      collection := Some (lit "SQL") |}
                   Doubles.stored_world).2) = 2%nat.
Proof.
  split; [|reflexivity].
  apply (save_chat_keeps_urls_unique Doubles.alloc_id Doubles.encode Doubles.vector_add
           {| title := lit "Other"; url := lit "https://example.org/2";
              messages := [Doubles.hello]; sidebarTitle := None;
              collection := Some (lit "SQL") |}
           Doubles.stored_world).
  simpl. apply NoDup_singleton.
Defined.

Lemma save_chat_adds_aligned_batch_witness :
  NoDup [lit "1_0"; lit "1_1"]
  /\ concat [Chunker.line Doubles.long_message; Chunker.line Doubles.hello]
     = Chunker.transcript [Doubles.long_message; Doubles.hello].
Proof.
  destruct (save_chat_adds_aligned_batch
              Doubles.alloc_id Doubles.encode Doubles.vector_add
              (Doubles.conversation_of [Doubles.long_message; Doubles.hello] None)
              Doubles.empty_world) as (calls & Htrace & Hcalls).
  change (trace Doubles.empty_world ++ calls) with calls in Htrace.
  destruct (Hcalls
              [lit "1_0"; lit "1_1"]
              [Chunker.line Doubles.long_message; Chunker.line Doubles.hello]
              [Chunker.chunk_metadata 1
                 (Doubles.conversation_of [Doubles.long_message; Doubles.hello] None) 0;
               Chunker.chunk_metadata 1
                 (Doubles.conversation_of [Doubles.long_message; Doubles.hello] None) 1])
    as (_ & _ & _ & Hnodup & Hcat & _).
  - rewrite <- Htrace. apply list_elem_of_In. right. right. left. reflexivity.
  - split; [exact Hnodup|exact Hcat].
Defined.

(** * Properties of the endpoints that read the SQL table *)

#[local] Instance newer_first_total : Total newer_first.
Proof. intros a b. unfold newer_first. lia. Qed.

#[local] Instance newer_first_trans : Transitive newer_first.
Proof. intros a b c. unfold newer_first. lia. Qed.

Lemma elem_of_distinct (values : list str) v : v ∈ distinct values <-> v ∈ values.
Proof.
  induction values as [|x values IH]; simpl; [done|].
  rewrite !elem_of_cons, list_elem_of_filter, IH.
  destruct (decide (v = x)); tauto.
Qed.

Lemma NoDup_distinct (values : list str) : NoDup (distinct values).
Proof.
  induction values as [|x values IH]; simpl; constructor.
  - rewrite list_elem_of_filter. by intros [? _].
  - by apply NoDup_filter.
Qed.

Section TableFacts.

Context {VectorStore : Type}.
Implicit Types (w : world VectorStore).

(** X13. [get_chat_status] leaves the world as it is and is exact: it answers
    with the identifier and title of a stored row with the url, or that
    there is none when no stored row has the url. *)
Theorem chat_status_exact (u : str) w :
  (exists row,
     get_chat_status u w = (Ok (StatusFound (chat_id row) (chat_title row)), w)
     /\ row ∈ db w /\ chat_url row = u)
  \/ (get_chat_status u w = (Ok StatusNotFound, w)
      /\ forall row, row ∈ db w -> chat_url row ≠ u).
Proof.
  unfold get_chat_status, bind, db_first_by_url, ret.
  destruct (List.find _ _) as [row|] eqn:E.
  - left. exists row. apply find_some in E as [Hin Hurl].
    apply list_elem_of_In in Hin. by apply bool_decide_eq_true_1 in Hurl.
  - right. split; [done|]. intros row Hin%list_elem_of_In Hurl.
    pose proof (find_none _ _ E row Hin) as F. simpl in F.
    by apply bool_decide_eq_false_1 in F.
Qed.

(** X16. [get_collections] leaves the world as it is; it lists every
    non-empty collection of a stored row once, and nothing else: no
    NULL, no empty string, no duplicate. *)
Theorem get_collections_exact w :
  exists collections,
    get_collections w = (Ok collections, w)
    /\ NoDup collections
    /\ forall c, c ∈ collections <->
         c ≠ [] /\ exists row, row ∈ db w /\ chat_collection row = Some c.
Proof.
  eexists. split; [reflexivity|]. split.
  - apply NoDup_filter, NoDup_distinct.
  - intros c. by rewrite list_elem_of_filter, elem_of_distinct, list_elem_of_omap.
Qed.

(** X17. [get_chats_by_collection] leaves the world as it is; it returns the
    stored rows of the collection, each once, every row before the rows
    with a smaller identifier. A row without collection is never
    returned. *)
Theorem chats_by_collection_exact (c : str) w :
  exists chats,
    get_chats_by_collection c w = (Ok chats, w)
    /\ StronglySorted newer_first chats
    /\ chats ≡ₚ filter (fun row => chat_collection row = Some c) (db w)
    /\ forall row, row ∈ chats <-> row ∈ db w /\ chat_collection row = Some c.
Proof.
  eexists. split; [reflexivity|]. split; [apply StronglySorted_merge_sort; apply _|].
  split; [apply merge_sort_Permutation|].
  intros row. by rewrite merge_sort_Permutation, list_elem_of_filter, (comm and).
Qed.

Variable ilike : str -> str -> bool.

Lemma take_all_or_full {A} (l : list A) (n : nat) :
  (length (take n l) < n)%nat -> take n l = l.
Proof. rewrite length_take. intros Hlt. apply take_ge. lia. Qed.

Lemma bool_filter_sublist {A} (f : A -> bool) (l : list A) :
  List.filter f l `sublist_of` l.
Proof.
  induction l as [|x l IH]; simpl; [done|].
  destruct (f x); [by apply sublist_skip|by apply sublist_cons].
Qed.

(** X19. [search_chats] leaves the world as it is; it returns at most ten
    rows, each a stored row with a title that matches the pattern
    [%q%]; and when it returns fewer than ten rows it returns every
    stored row whose title matches. *)
Theorem search_chats_bounded (q : str) w :
  exists results,
    search_chats ilike q w = (Ok results, w)
    /\ (length results <= 10)%nat
    /\ (forall row, row ∈ results ->
          row ∈ db w
          /\ exists t, chat_title row = Some t
                       /\ ilike t (lit "%" ++ q ++ lit "%") = true)
    /\ ((length results < 10)%nat ->
        forall row t, row ∈ db w -> chat_title row = Some t ->
          ilike t (lit "%" ++ q ++ lit "%") = true -> row ∈ results).
Proof.
  eexists. split; [reflexivity|].
  set (pattern := lit "%" ++ q ++ lit "%").
  split; [rewrite length_take; lia|]. split.
  - intros row Hin.
    pose proof (elem_of_sublist _ _ _ Hin (sublist_take _ 10)) as Hin'.
    split; [by apply (elem_of_sublist _ _ _ Hin' (bool_filter_sublist _ _))|].
    apply list_elem_of_In, filter_In in Hin' as [_ Hm].
    unfold title_matches in Hm. destruct (chat_title row) as [t|]; [eauto|done].
  - intros Hlt row t Hin Ht Hm. rewrite take_all_or_full by done.
    apply list_elem_of_In, filter_In. split; [by apply list_elem_of_In|].
    unfold title_matches. by rewrite Ht.
Qed.

End TableFacts.

(** * [save_chat] seen through the reading endpoints *)

Section SaveThenRead.

Context {Embedding VectorStore : Type}.
Variable alloc_id : list Chat -> Z.
Variable encode : list str -> outcome (list Embedding).
Variable vector_add :
  VectorStore -> list Embedding -> list str -> list (gmap string pyval) -> list str ->
  outcome () * VectorStore.

Implicit Types (w : world VectorStore) (conversation : Conversation).

Abbreviation save := (save_chat alloc_id encode vector_add).

(** X14. After [save_chat], [get_chat_status] on the url of the conversation
    finds a row, and its identifier is the one [save_chat] returned. *)
Theorem chat_status_after_save conversation w :
  exists resp t,
    (save conversation w).1 = Ok resp
    /\ get_chat_status (url conversation) (save conversation w).2
       = (Ok (StatusFound (database_id resp) t), (save conversation w).2).
Proof.
  destruct (find_after_save alloc_id encode vector_add conversation w)
    as (row & Hfind & Hresp).
  assert (get_chat_status (url conversation) (save conversation w).2
          = (Ok (StatusFound (chat_id row) (chat_title row)), (save conversation w).2))
    as Hstatus.
  { unfold get_chat_status, bind, db_first_by_url. by rewrite Hfind. }
  destruct Hresp as [E|[E _]]; eexists _, _; (split; [exact E|exact Hstatus]).
Qed.


(** X18. A conversation saved under a new url with a collection tag is listed
    by [get_chats_by_collection] for that tag, and the tag, when it is
    not the empty string, is listed by [get_collections]. *)
Theorem saved_chat_is_listed conversation w (c : str) :
  (forall row, row ∈ db w -> chat_url row ≠ url conversation) ->
  collection conversation = Some c ->
  (exists chats,
     get_chats_by_collection c (save conversation w).2
     = (Ok chats, (save conversation w).2)
     /\ committed_row alloc_id conversation w ∈ chats)
  /\ (c ≠ [] ->
      exists collections,
        get_collections (save conversation w).2
        = (Ok collections, (save conversation w).2)
        /\ c ∈ collections).
Proof.
  intros Hnew Hc.
  assert (committed_row alloc_id conversation w ∈ db (save conversation w).2) as Hin.
  { rewrite save_chat_new_db by done. apply elem_of_app. right. by left. }
  split.
  - eexists. split; [reflexivity|].
    rewrite merge_sort_Permutation, list_elem_of_filter. split; [exact Hc|exact Hin].
  - intros Hne. eexists. split; [reflexivity|].
    rewrite list_elem_of_filter, elem_of_distinct, list_elem_of_omap.
    split; [done|]. exists (committed_row alloc_id conversation w).
    split; [exact Hin|exact Hc].
Qed.

End SaveThenRead.

(** * Further properties of [ai_search_chats] *)

Lemma unique_sources_NoDup (metas : list (option (gmap string pyval))) :
  NoDup (sr_url <$> Sources.unique_sources metas).
Proof.
  unfold Sources.unique_sources. rewrite loop_first_occurrences. simpl.
  rewrite <- list_fmap_compose.
  eapply sublist_NoDup; [apply first_occurrences_NoDup|].
  apply (fmap_sublist Sources.url_of), sublist_filter.
Qed.

Section SearchFacts.

Context {Embedding VectorStore : Type}.
Variable encode : list str -> outcome (list Embedding).
Variable vector_query :
  VectorStore -> Embedding -> Z -> option (gmap string pyval) ->
  outcome (option QueryResult).
Variable generate_content : str -> outcome (list str).

Implicit Types (w : world VectorStore) (key : option str).

Abbreviation search := (ai_search_chats encode vector_query generate_content).

(** The case analysis of a search: every way through the endpoint. *)
Ltac search_step :=
  match goal with
  | |- context [match query ?r with _ => _ end] => destruct (query r) eqn:?
  | |- context [encode ?x] => destruct (encode x) as [[|? ?]|?]
  | |- context [vector_query ?a ?b ?c ?d] => destruct (vector_query a b c d)
  | |- context [if empty_result ?r then _ else _] => destruct (empty_result r)
  | |- context [generate_content ?p] => destruct (generate_content p) as [[|? ?]|?]
  | |- context [match ?key with Some _ => _ | None => _ end] =>
      is_var key; destruct key as [[|? ?]|]
  end.

Ltac search_cases :=
  unfold ai_search_chats, synthesize; autounfold with effects;
  repeat (cbn [fst snd vectors db trace]; search_step);
  cbn [fst snd vectors db trace].


(** X21. A search reads: the SQL rows and the vector collection are left as
    they were, and the log of calls only grows. *)
Theorem search_is_read_only key query_request w :
  db (ai_search_chats encode vector_query generate_content key query_request w).2
  = db w
  /\ vectors (ai_search_chats encode vector_query generate_content key query_request w).2
     = vectors w
  /\ trace w
       `prefix_of`
     trace (ai_search_chats encode vector_query generate_content key query_request w).2.
Proof.
  search_cases; repeat split; try done;
    rewrite <- ?app_assoc; by apply prefix_app_r.
Qed.

(** X22. The sources of a response never hold the same url twice. *)
Theorem search_sources_distinct key query_request w resp :
  (ai_search_chats encode vector_query generate_content key query_request w).1 = Ok resp ->
  NoDup (sr_url <$> sources resp).
Proof.
  search_cases; intros [= <-]; cbn [sources];
    first [apply NoDup_nil_2 | apply unique_sources_NoDup].
Qed.

(** X23. Without a key, [None] or the empty string, the generative model is
    not called: after the query of the collection the search returns the
    raw context under a notice, with the sources. *)
Theorem search_without_key_returns_context key query_request w emb embs results :
  query query_request ≠ [] ->
  encode [query query_request] = Ok (emb :: embs) ->
  vector_query (vectors w) emb 20 (where_filter_of query_request) = Ok results ->
  empty_result results = false ->
  key = None \/ key = Some [] ->
  search key query_request w
  = (Ok {| answer := lit "Gemini API key not configured. Raw context:" ++ [newline]
                       ++ join ([newline] ++ lit "---" ++ [newline])
                            (first_documents results);
           sources := Sources.unique_sources (source_metadatas_of results) |},
     log (VectorQuery 20 (where_filter_of query_request))
       (log (Encode [query query_request]) w)).
Proof.
  intros Hq Henc Hres Hfull Hkey. unfold ai_search_chats.
  destruct (query query_request) as [|c q] eqn:Eq; [done|].
  autounfold with effects. rewrite Henc. cbn [vectors]. rewrite Hres. cbn [vectors].
  rewrite Hfull. by destruct Hkey as [-> | ->].
Qed.

(** X24. With a key, when the generative model returns, the answer is the
    concatenation of the texts of its parts, or the notice of an empty
    response when it returned no part; the sources are attached in both
    cases. *)
Theorem search_answer_from_parts key query_request w emb embs results k ks parts :
  query query_request ≠ [] ->
  encode [query query_request] = Ok (emb :: embs) ->
  vector_query (vectors w) emb 20 (where_filter_of query_request) = Ok results ->
  empty_result results = false ->
  key = Some (k :: ks) ->
  generate_content
    (prompt_of (join ([newline] ++ lit "---" ++ [newline]) (first_documents results))
       (query query_request)) = Ok parts ->
  (search key query_request w).1
  = Ok {| answer := match parts with
                    | [] => empty_response_notice
                    | _ :: _ => concat parts
                    end;
          sources := Sources.unique_sources (source_metadatas_of results) |}.
Proof.
  intros Hq Henc Hres Hfull -> Hgen. unfold ai_search_chats, synthesize.
  destruct (query query_request) as [|c q] eqn:Eq; [done|].
  autounfold with effects. rewrite Henc. cbn [vectors]. rewrite Hres. cbn [vectors].
  rewrite Hfull. cbn [vectors]. rewrite Hgen. by destruct parts.
Qed.

(** X25. When the embedding model returns no vector for the query, the read
    of the first vector fails and the search raises the error response
    of status 500 without querying the collection. *)
Theorem search_without_embedding key query_request w :
  query query_request ≠ [] ->
  encode [query query_request] = Ok [] ->
  search key query_request w
  = (Raise (HTTPException 500
              (lit "An internal error occurred during search: list index out of range")),
     log (Encode [query query_request]) w).
Proof.
  intros Hq Henc. unfold ai_search_chats.
  destruct (query query_request) as [|c q] eqn:Eq; [done|].
  run_effects. by rewrite Henc.
Qed.

(** An empty string as collection filter is no filter: the search is
    the one without filter. *)
Lemma search_empty_filter_is_no_filter key (q : str) w :
  search key {| query := q; collection_filter := Some [] |} w
  = search key {| query := q; collection_filter := None |} w.
Proof. reflexivity. Qed.

(** X26. A search calls each backend at most once and in one order: the
    embedding of the query alone, then the query of the collection for
    20 results under the filter of the request, then the generative
    model. *)
Theorem search_calls_in_order key query_request w :
  exists calls,
    trace (search key query_request w).2
    = trace w ++ calls
    /\ (calls = []
        \/ calls = [Encode [query query_request]]
        \/ calls = [Encode [query query_request];
                    VectorQuery 20 (where_filter_of query_request)]
        \/ exists prompt,
             calls = [Encode [query query_request];
                      VectorQuery 20 (where_filter_of query_request);
                      GenerateContent prompt]).
Proof.
  unfold ai_search_chats, synthesize; autounfold with effects.
  destruct (query query_request) as [|c q]; cbn [fst snd trace vectors].
  { exists []. rewrite app_nil_r. auto. }
  repeat (cbn [fst snd vectors db trace]; search_step);
    cbn [fst snd vectors db trace]; rewrite <- ?app_assoc;
    eexists; (split; [reflexivity|]); simpl; eauto 10.
Qed.

End SearchFacts.

(** * The further properties on the reference backends *)

Lemma chat_status_exact_witness :
  get_chat_status (lit "https://example.org/none") Doubles.stored_world
  = (Ok StatusNotFound, Doubles.stored_world).
Proof.
  destruct (chat_status_exact (lit "https://example.org/none") Doubles.stored_world)
    as [(row & _ & Hin & Hurl)|[E _]]; [|exact E].
  apply list_elem_of_In in Hin. simpl in Hin. destruct Hin as [<-|[]]. discriminate.
Defined.

Lemma search_chats_bounded_witness :
  exists results,
    search_chats (fun title pattern => true) (lit "ind") Doubles.stored_world
    = (Ok results, Doubles.stored_world)
    /\ Doubles.stored_chat ∈ results.
Proof.
  destruct (search_chats_bounded (fun title pattern => true) (lit "ind")
              Doubles.stored_world) as (results & E & _ & _ & Hall).
  exists results. split; [exact E|].
  injection E as <-.
  apply (Hall ltac:(vm_compute; lia) Doubles.stored_chat (lit "Indexes")).
  - apply list_elem_of_In. left. reflexivity.
  - reflexivity.
  - reflexivity.
Defined.


Lemma saved_chat_is_listed_witness :
  exists collections,
    get_collections
      (save_chat Doubles.alloc_id Doubles.encode Doubles.vector_add
         (Doubles.conversation_of [Doubles.hello] None) Doubles.empty_world).2
    = (Ok collections,
       (save_chat Doubles.alloc_id Doubles.encode Doubles.vector_add
          (Doubles.conversation_of [Doubles.hello] None) Doubles.empty_world).2)
    /\ lit "Uncategorized" ∈ collections.
Proof.
  destruct (saved_chat_is_listed Doubles.alloc_id Doubles.encode Doubles.vector_add
              (Doubles.conversation_of [Doubles.hello] None) Doubles.empty_world
              (lit "Uncategorized")) as [_ Hlisted].
  - intros row Hin. inversion Hin.
  - reflexivity.
  - apply Hlisted. discriminate.
Defined.


Lemma search_sources_distinct_witness :
  NoDup [PStr Doubles.chat_url0].
Proof.
  apply (search_sources_distinct Doubles.encode Doubles.vector_query
           Doubles.generate_content (Some (lit "key"))
           {| query := lit "indexes"; collection_filter := None |}
           Doubles.stored_world
           {| answer := lit "You discussed indexes.";
              sources := [{| sr_title := PStr (lit "Indexes");
                             sr_url := PStr Doubles.chat_url0 |}] |}).
  reflexivity.
Defined.

Lemma search_without_key_returns_context_witness :
  (ai_search_chats Doubles.encode Doubles.vector_query Doubles.generate_content
     (Some []) {| query := lit "indexes"; collection_filter := None |}
     Doubles.stored_world).1
  = Ok {| answer := lit "Gemini API key not configured. Raw context:" ++ [newline]
                      ++ Chunker.transcript [Doubles.hello; Doubles.reply];
          sources := [{| sr_title := PStr (lit "Indexes");
                         sr_url := PStr Doubles.chat_url0 |}] |}.
Proof.
  rewrite (search_without_key_returns_context
             Doubles.encode Doubles.vector_query Doubles.generate_content
             (Some []) {| query := lit "indexes"; collection_filter := None |}
             Doubles.stored_world 7 []
             (Some {| documents := Some [[Chunker.transcript [Doubles.hello; Doubles.reply]]];
                      result_metadatas :=
                        Some [[Some (Doubles.vr_metadata Doubles.stored_record)]] |}));
    [reflexivity|discriminate|reflexivity|reflexivity|reflexivity|by right].
Defined.

Lemma search_answer_from_parts_witness :
  (ai_search_chats Doubles.encode Doubles.vector_query (fun prompt => Ok [])
     (Some (lit "key")) {| query := lit "indexes"; collection_filter := None |}
     Doubles.stored_world).1
  = Ok {| answer := empty_response_notice;
          sources := [{| sr_title := PStr (lit "Indexes");
                         sr_url := PStr Doubles.chat_url0 |}] |}.
Proof.
  apply (search_answer_from_parts
           Doubles.encode Doubles.vector_query (fun prompt => Ok [])
           (Some (lit "key")) {| query := lit "indexes"; collection_filter := None |}
           Doubles.stored_world 7 []
           (Some {| documents := Some [[Chunker.transcript [Doubles.hello; Doubles.reply]]];
                    result_metadatas :=
                      Some [[Some (Doubles.vr_metadata Doubles.stored_record)]] |})
           107%N [101%N; 121%N] []); reflexivity || discriminate.
Defined.

Lemma search_without_embedding_witness :
  ai_search_chats (fun texts => Ok []) Doubles.vector_query Doubles.generate_content
    (Some (lit "key")) {| query := lit "indexes"; collection_filter := None |}
    Doubles.stored_world
  = (Raise (HTTPException 500
              (lit "An internal error occurred during search: list index out of range")),
     {| db := [Doubles.stored_chat]; vectors := [Doubles.stored_record];
        trace := [Encode [lit "indexes"]] |}).
Proof.
  apply (search_without_embedding (fun texts => Ok []) Doubles.vector_query
           Doubles.generate_content (Some (lit "key"))
           {| query := lit "indexes"; collection_filter := None |} Doubles.stored_world);
    [discriminate|reflexivity].
Defined.

(** * What [save_chat] does to the vector collection *)

Section VectorCollectionFacts.

Context {Embedding VectorStore : Type}.
Variable alloc_id : list Chat -> Z.
Variable encode : list str -> outcome (list Embedding).
Variable vector_add :
  VectorStore -> list Embedding -> list str -> list (gmap string pyval) -> list str ->
  outcome () * VectorStore.

Implicit Types (w : world VectorStore) (conversation : Conversation).

(** X12. On a new url the vector collection is touched by at most one [add]:
    it is left as it was when there is no chunk or when the embedding of
    the chunks raises, and it is otherwise what the [add] of the chunks
    with the embeddings returned by the model leaves, whether that [add]
    returns or raises. *)
Theorem save_chat_vector_collection conversation w :
  (forall row, row ∈ db w -> chat_url row ≠ url conversation) ->
  let st := Chunker.run (alloc_id (db w)) conversation in
  vectors (save_chat alloc_id encode vector_add conversation w).2
  = match Chunker.chunks st, encode (Chunker.chunks st) with
    | _ :: _, Ok embeddings =>
        (vector_add (vectors w) embeddings (Chunker.chunks st)
           (Chunker.metadatas st) (Chunker.chunk_ids st)).2
    | _, _ => vectors w
    end.
Proof.
  intros Hnew st. rewrite save_chat_new by done. simpl.
  unfold index_chunks. fold st.
  destruct (Chunker.chunks st) as [|c cs]; [done|]. run_effects.
  destruct (encode (c :: cs)) as [embeddings|e]; simpl; [|done].
  by destruct (vector_add _ _ _ _ _).
Qed.

End VectorCollectionFacts.

Lemma save_chat_vector_collection_witness :
  vectors (save_chat Doubles.alloc_id Doubles.encode_down Doubles.vector_add
             (Doubles.conversation_of [Doubles.hello] None) Doubles.empty_world).2
  = [].
Proof.
  apply (save_chat_vector_collection Doubles.alloc_id Doubles.encode_down
           Doubles.vector_add (Doubles.conversation_of [Doubles.hello] None)
           Doubles.empty_world).
  intros row Hin. inversion Hin.
Defined.
